(** * Retrieval and benchmarking core of the agent scaffold

    A shallow embedding of [src/agent/core/retrieval.py],
    [src/agent/core/retrieval_benchmark.py] and the part of
    [src/agent/core/io.py] they use.

    - Python [str] values are [string]s whose characters are read as the
      code points U+0000..U+00FF; on that range [str.split], [str.strip]
      and [str.lower] are modelled exactly.
    - A [dict] or [Counter] is an association list in insertion order
      (the order in which Python iterates it, which fixes the order of
      the floating-point summations).
    - Python [float] arithmetic is abstracted by the class [PyFloat] and
      interpreted in IEEE-754 binary64 (Rocq's primitive floats), which
      is what CPython executes. Theorems are stated for every instance
      of the class where the arithmetic plays no part, and for binary64
      where it does; there, facts about the quotient of two lengths are
      settled by evaluation up to a stated size, and exact values of
      doubles are real numbers.
    - Mutable objects are threaded explicitly: a method that mutates
      [self] returns the new object next to its result. *)

From Stdlib Require Import List String Ascii Bool ZArith Lia.
From Stdlib Require Import Sorted Permutation.
From Stdlib Require Import Reals Lra.
From Stdlib Require Import Floats.
Import ListNotations.

Local Open Scope string_scope.
Local Open Scope list_scope.
Local Open Scope Z_scope.

(** ** Python strings *)

Module PyStr.

(** [c.isspace()] for a code point below 256. *)
Definition isspace (c : ascii) : bool :=
  let n := nat_of_ascii c in
  ((9 <=? n) && (n <=? 13) || (28 <=? n) && (n <=? 32)
   || (n =? 133) || (n =? 160))%nat.

(** [c.lower()] for a code point below 256. *)
Definition lower_char (c : ascii) : ascii :=
  let n := nat_of_ascii c in
  if ((65 <=? n) && (n <=? 90)
      || (192 <=? n) && (n <=? 222) && negb (n =? 215))%nat
  then ascii_of_nat (n + 32) else c.

Definition lower (s : string) : string :=
  string_of_list_ascii (map lower_char (list_ascii_of_string s)).

Fixpoint lstrip_chars (p : ascii -> bool) (s : list ascii) : list ascii :=
  match s with
  | [] => []
  | c :: s' => if p c then lstrip_chars p s' else s
  end.

Definition strip_chars (p : ascii -> bool) (s : list ascii) : list ascii :=
  rev (lstrip_chars p (rev (lstrip_chars p s))).

Definition mem_char (chars : string) (c : ascii) : bool :=
  existsb (Ascii.eqb c) (list_ascii_of_string chars).

(** [s.strip(chars)]. *)
Definition strip (chars : string) (s : string) : string :=
  string_of_list_ascii (strip_chars (mem_char chars) (list_ascii_of_string s)).

(** [s.strip()]. *)
Definition strip_ws (s : string) : string :=
  string_of_list_ascii (strip_chars isspace (list_ascii_of_string s)).

(** Truth value of a string: non-empty. *)
Definition truthy (s : string) : bool :=
  match s with EmptyString => false | String _ _ => true end.

(** [s.split()]: the maximal runs of non-whitespace characters.
    [cur] holds the current run, reversed. *)
Fixpoint split_runs (cur : list ascii) (s : list ascii) : list (list ascii) :=
  match s with
  | [] => match cur with [] => [] | _ :: _ => [rev cur] end
  | c :: s' =>
      if isspace c then
        match cur with
        | [] => split_runs [] s'
        | _ :: _ => rev cur :: split_runs [] s'
        end
      else split_runs (c :: cur) s'
  end.

Definition split (s : string) : list string :=
  map string_of_list_ascii (split_runs [] (list_ascii_of_string s)).

(** [sep.join(parts)]. *)
Definition join (sep : string) (parts : list string) : string :=
  String.concat sep parts.

End PyStr.

(** ** Python sequences *)

Module PySeq.

(** [l[:k]]: a negative [k] counts from the end. *)
Definition slice_to {A : Type} (k : Z) (l : list A) : list A :=
  if k <? 0
  then firstn (Z.to_nat (Z.max 0 (Z.of_nat (List.length l) + k))) l
  else firstn (Z.to_nat k) l.

(** [x in l] for strings. *)
Definition mem (x : string) (l : list string) : bool :=
  existsb (String.eqb x) l.

(** [len(set(a).intersection(set(b)))]: the distinct elements of [a]
    that occur in [b]. *)
Fixpoint dedup (l : list string) : list string :=
  match l with
  | [] => []
  | x :: l' => if mem x l' then dedup l' else x :: dedup l'
  end.

Definition inter_size (a b : list string) : Z :=
  Z.of_nat (List.length (dedup (filter (fun x => mem x b) a))).

(** [collections.deque.append] on a deque built with [maxlen]: the item
    goes to the right end, and the leftmost one is dropped when the
    length exceeds [maxlen]. *)
Definition deque_append {A : Type} (maxlen : nat) (d : list A) (x : A) : list A :=
  let d' := d ++ [x] in
  if (maxlen <? List.length d')%nat then tl d' else d'.

End PySeq.

(** ** Tokenizer *)

(** The characters of the argument of [strip] in [_tokenize]. The source
    writes two adjacent literals, [".,;:!?()[]{}<>"] and ["'\n\t"], which
    Python concatenates. *)
Definition strip_set : string :=
  ".,;:!?()[]{}<>" ++ "'" ++ String "010"%char (String "009"%char EmptyString).

Definition _tokenize (text : string) : list string :=
  map (fun t => PyStr.lower (PyStr.strip strip_set t))
      (filter (fun t => PyStr.truthy (PyStr.strip_ws t)) (PyStr.split text)).

(** [Counter(tokens)]: counts in order of first occurrence. *)
Fixpoint counter_incr (tok : string) (c : list (string * Z)) : list (string * Z) :=
  match c with
  | [] => [(tok, 1)]
  | (k, v) :: c' =>
      if String.eqb k tok then (k, v + 1) :: c' else (k, v) :: counter_incr tok c'
  end.

Definition Counter (tokens : list string) : list (string * Z) :=
  fold_left (fun c tok => counter_incr tok c) tokens [].

(** ** Python floats *)

(** The operations of Python's [float] that the source uses. [of_int] is
    the conversion [float(n)] that Python applies to an [int] operand of a
    mixed operation, [truthy] the truth value tested by [or], [pyround x d]
    the built-in [round(x, d)] and [flt] the comparison [<] that [sorted]
    uses. [flt_asym] is the one law the ordering results need. *)
Class PyFloat (F : Type) : Type := {
  of_int : Z -> F;
  fadd : F -> F -> F;
  fsub : F -> F -> F;
  fmul : F -> F -> F;
  fdiv : F -> F -> F;
  fsqrt : F -> F;
  flt : F -> F -> bool;
  truthy : F -> bool;
  pyround : F -> nat -> F;
  flt_asym : forall x y, flt x y = true -> flt y x = false
}.

(** A decimal literal with numerator [n] and denominator [d] (a power of
    ten): correctly rounded division of two exact values gives the double
    nearest to the decimal, which is the value of the literal. *)
Definition literal {F : Type} `{PyFloat F} (n d : Z) : F :=
  fdiv (of_int n) (of_int d).

(** *** IEEE-754 binary64 *)

Module F64.

(** [float(n)]: the double nearest to [n] (ties to even). It is exact
    below 2^53; where CPython raises [OverflowError] (beyond the largest
    double) this gives an infinity. *)
Definition of_int (z : Z) : float :=
  SF2Prim (binary_normalize prec emax z 0 false).

(** [num / den] rounded to the nearest integer, ties to even, for
    [0 <= num] and [0 < den]. *)
Definition div_half_even (num den : Z) : Z :=
  let q := num / den in
  match 2 * (num mod den) ?= den with
  | Lt => q
  | Gt => q + 1
  | Eq => if Z.even q then q else q + 1
  end.

(** The magnitude [m * 2^e], scaled by [10^d] and rounded to an integer
    (ties to even). *)
Definition scaled_magnitude (m : positive) (e : Z) (d : nat) : Z :=
  let p := 10 ^ Z.of_nat d in
  if 0 <=? e then Zpos m * 2 ^ e * p
  else div_half_even (Zpos m * p) (2 ^ (- e)).

(** [round(x, d)] for [d >= 0]. CPython prints the exact value of [x]
    with [d] correctly rounded decimals (ties to even) and reads the
    decimal back: the result is the double nearest to [n / 10^d], where
    [n] is the scaled magnitude. While [n < 2^53] that is the correctly
    rounded quotient of two exact doubles; beyond, for the [d] used here
    (2 and 4), the spacing of doubles around [x] exceeds [10^-d] and the
    nearest double is [x] itself. Zeros, infinities and NaN round to
    themselves. *)
Definition pyround (x : float) (d : nat) : float :=
  match Prim2SF x with
  | S754_finite s m e =>
      let n := scaled_magnitude m e d in
      if n <? 2 ^ 53 then
        let r := (of_int n / of_int (10 ^ Z.of_nat d))%float in
        if s then (- r)%float else r
      else x
  | _ => x
  end.

(** [bool(x)]: [x != 0.0]. *)
Definition truthy (x : float) : bool := negb (PrimFloat.eqb x 0%float).

Lemma SFcompare_Lt_asym (a b : spec_float) :
  SFcompare a b = Some Lt -> SFcompare b a = Some Gt.
Proof.
  destruct a as [sa | sa | | sa ma ea], b as [sb | sb | | sb mb eb];
    simpl; try discriminate;
    try (destruct sa; discriminate); try (destruct sb; discriminate);
    try (destruct sa, sb; simpl; congruence).
  destruct sa, sb; try congruence;
    rewrite (Z.compare_antisym ea eb);
    destruct (ea ?= eb) eqn:E; simpl; try congruence;
    rewrite !Pos.compare_cont_spec; simpl;
    rewrite (Pos.compare_antisym ma mb);
    destruct (ma ?= mb)%positive; simpl; congruence.
Qed.

Lemma float_ltb_asym (x y : float) :
  PrimFloat.ltb x y = true -> PrimFloat.ltb y x = false.
Proof.
  rewrite !ltb_spec. unfold SFltb.
  destruct (SFcompare (Prim2SF x) (Prim2SF y)) as [[ | | ] | ] eqn:E;
    try discriminate.
  intros _. now rewrite (SFcompare_Lt_asym _ _ E).
Qed.

End F64.

#[export] Instance PyFloat_float : PyFloat float := {
  of_int := F64.of_int;
  fadd := PrimFloat.add;
  fsub := PrimFloat.sub;
  fmul := PrimFloat.mul;
  fdiv := PrimFloat.div;
  fsqrt := PrimFloat.sqrt;
  flt := PrimFloat.ltb;
  truthy := F64.truthy;
  pyround := F64.pyround;
  flt_asym := F64.float_ltb_asym
}.

(** ** Knowledge bundles ([io.py]) *)

Inductive Modality : Type := Text | Image | Audio | Mixed.

Record KnowledgeSlice : Type := {
  slice_id : string;
  slice_summary : string;
  slice_highlights : list string;
  slice_modality : Modality;
  slice_source_refs : list string;
  slice_tags : list string
}.

(** The field validator of [highlights]: empty strings are dropped. *)
Definition ensure_highlights (value : list string) : list string :=
  filter PyStr.truthy value.

(** [KnowledgeSlice(id=..., summary=..., ...)], validator applied. *)
Definition new_slice (id summary : string) (highlights : list string)
    (modality : Modality) (tags source_refs : list string) : KnowledgeSlice :=
  {| slice_id := id;
     slice_summary := summary;
     slice_highlights := ensure_highlights highlights;
     slice_modality := modality;
     slice_source_refs := source_refs;
     slice_tags := tags |}.

(** The timestamp and trace id of a bundle play no part in retrieval. *)
Record KnowledgeBundle : Type := { slices : list KnowledgeSlice }.

(** One of the lightweight dicts given to [from_texts]: its ["id"], its
    body (["content"], ["caption"] or ["transcript"]), its ["tags"] and
    its ["sources"], absent lists read as empty. *)
Record Entry : Type := {
  entry_id : string;
  entry_body : string;
  entry_tags : list string;
  entry_sources : list string
}.

Definition slice_of_entry (modality : Modality) (entry : Entry) : KnowledgeSlice :=
  new_slice (entry_id entry) (entry_body entry) [entry_body entry] modality
            (entry_tags entry) (entry_sources entry).

Definition from_texts (texts images audio : list Entry) : KnowledgeBundle :=
  {| slices := map (slice_of_entry Text) texts
               ++ map (slice_of_entry Image) images
               ++ map (slice_of_entry Audio) audio |}.

(** ** Embedding ([retrieval.py]) *)

Record IndexedDocument (F : Type) : Type := {
  doc_id : string;
  doc_vector : list (string * F);
  doc_summary : string;
  doc_tags : list string;
  doc_modality : Modality;
  doc_sources : list string
}.
Arguments doc_id {F}.
Arguments doc_vector {F}.
Arguments doc_summary {F}.
Arguments doc_tags {F}.
Arguments doc_modality {F}.
Arguments doc_sources {F}.

Record RetrievalHit (F : Type) : Type := {
  hit_id : string;
  hit_score : F;
  hit_summary : string;
  hit_tags : list string;
  hit_modality : Modality;
  hit_sources : list string
}.
Arguments hit_id {F}.
Arguments hit_score {F}.
Arguments hit_summary {F}.
Arguments hit_tags {F}.
Arguments hit_modality {F}.
Arguments hit_sources {F}.

Record RetrievalResponse (F : Type) : Type := { hits : list (RetrievalHit F) }.
Arguments hits {F}.

Section Embedding.
Context {F : Type} `{PyFloat F}.

(** [sum(xs)] over floats: from the integer 0, left to right (CPython from
    3.12 on also compensates the rounding errors of the partial sums,
    which changes nothing when at most one term is not zero). *)
Definition fsum (xs : list F) : F := fold_left fadd xs (of_int 0).

(** [sum(xs)] over integers. *)
Definition isum (xs : list Z) : Z := fold_left Z.add xs 0.

Definition _normalize (counter : list (string * Z)) : list (string * F) :=
  let root := fsqrt (of_int (isum (map (fun kv => snd kv * snd kv) counter))) in
  let norm := if truthy root then root else of_int 1 in
  map (fun kv => (fst kv, fdiv (of_int (snd kv)) norm)) counter.

Definition embed_text (text : string) : list (string * F) :=
  _normalize (Counter (_tokenize text)).

(** [d.get(key, default)]. *)
Fixpoint dict_get (d : list (string * F)) (key : string) (default : F) : F :=
  match d with
  | [] => default
  | (k, v) :: d' => if String.eqb k key then v else dict_get d' key default
  end.

(** [sorted(l, key=key, reverse=True)]: a stable sort into descending
    order that only asks [<] of the keys. [insert_desc x l] puts [x]
    before the first element whose key is not greater, so an element
    stays ahead of the later ones with an equal key. On keys that [<]
    orders totally (no NaN) a stable sort has one possible result. *)
Fixpoint insert_desc {A : Type} (key : A -> F) (x : A) (l : list A) : list A :=
  match l with
  | [] => [x]
  | y :: l' =>
      if flt (key x) (key y) then y :: insert_desc key x l' else x :: l
  end.

Definition sorted_desc {A : Type} (key : A -> F) (l : list A) : list A :=
  fold_right (insert_desc key) [] l.

(** [hit.model_copy(update={"score": s})]. *)
Definition with_score (hit : RetrievalHit F) (s : F) : RetrievalHit F :=
  {| hit_id := hit_id hit;
     hit_score := s;
     hit_summary := hit_summary hit;
     hit_tags := hit_tags hit;
     hit_modality := hit_modality hit;
     hit_sources := hit_sources hit |}.

End Embedding.

(** ** The vector index *)

Module InMemoryVectorIndex.
Section WithFloat.
Context {F : Type} `{PyFloat F}.

Record t : Type := { _docs : list (IndexedDocument F) }.

Definition init : t := {| _docs := [] |}.

Definition add (self : t) (doc_id text summary : string) (tags : list string)
    (modality : Modality) (sources : list string) : t :=
  let vector := embed_text text in
  {| _docs := _docs self ++
       [ {| doc_id := doc_id;
            doc_vector := vector;
            doc_summary := summary;
            doc_tags := tags;
            doc_modality := modality;
            doc_sources := sources |} ] |}.

Definition similarity (query_vector doc_vector : list (string * F)) : F :=
  fsum (map (fun tw => fmul (dict_get query_vector (fst tw) (of_int 0)) (snd tw))
            doc_vector).

(** The hit built for one stored document in the loop of [query]. *)
Definition score_doc (query_vector : list (string * F)) (doc : IndexedDocument F)
    : RetrievalHit F :=
  let score := similarity query_vector (doc_vector doc) in
  {| hit_id := doc_id doc;
     hit_score := pyround score 4;
     hit_summary := doc_summary doc;
     hit_tags := doc_tags doc;
     hit_modality := doc_modality doc;
     hit_sources := doc_sources doc |}.

Definition query (self : t) (text : string) (top_k : Z) : list (RetrievalHit F) :=
  let query_vector := embed_text text in
  let scored := map (score_doc query_vector) (_docs self) in
  PySeq.slice_to top_k (sorted_desc hit_score scored).

Definition reset (self : t) : t := {| _docs := [] |}.

End WithFloat.
Arguments t F : clear implicits.
End InMemoryVectorIndex.

(** ** The retrieval engine *)

Module RetrievalEngine.
Section WithFloat.
Context {F : Type} `{PyFloat F}.

Record t : Type := {
  index : InMemoryVectorIndex.t F;
  tag_boost : F;
  source_boost : F
}.

(** [RetrievalEngine(index, tag_boost, source_boost)]; an absent index is
    a fresh one. *)
Definition init (index : option (InMemoryVectorIndex.t F)) (tag_boost source_boost : F) : t :=
  {| index := match index with Some i => i | None => InMemoryVectorIndex.init end;
     tag_boost := tag_boost;
     source_boost := source_boost |}.

Definition with_index (self : t) (i : InMemoryVectorIndex.t F) : t :=
  {| index := i; tag_boost := tag_boost self; source_boost := source_boost self |}.

(** The body of the loop of [ingest_bundle]. *)
Definition ingest_slice (i : InMemoryVectorIndex.t F) (slice_ : KnowledgeSlice)
    : InMemoryVectorIndex.t F :=
  let text := PyStr.join " " (slice_summary slice_ :: slice_highlights slice_) in
  InMemoryVectorIndex.add i (slice_id slice_) text (slice_summary slice_)
    (slice_tags slice_) (slice_modality slice_) (slice_source_refs slice_).

Definition ingest_bundle (self : t) (bundle : KnowledgeBundle) : Z * t :=
  (Z.of_nat (List.length (slices bundle)),
   with_index self (fold_left ingest_slice (slices bundle) (index self))).

(** The body of the loop of [query]: the hit with its adjusted score.
    [query_tokens] is the list of tokens; [PySeq.inter_size] counts the
    distinct strings it shares with the tags, as the two sets do. *)
Definition adjust (self : t) (query_tokens : list string) (hit : RetrievalHit F)
    : RetrievalHit F :=
  let tag_bonus :=
    fmul (tag_boost self) (of_int (PySeq.inter_size query_tokens (hit_tags hit))) in
  let source_bonus :=
    match hit_sources hit with [] => of_int 0 | _ :: _ => source_boost self end in
  with_score hit (pyround (fadd (fadd (hit_score hit) tag_bonus) source_bonus) 4).

Definition query (self : t) (text : string) (top_k : Z) : RetrievalResponse F :=
  let query_tokens := _tokenize text in
  let hits := map (adjust self query_tokens)
                  (InMemoryVectorIndex.query (index self) text top_k) in
  {| hits := PySeq.slice_to top_k (sorted_desc hit_score hits) |}.

Definition reset (self : t) : t :=
  with_index self (InMemoryVectorIndex.reset (index self)).

End WithFloat.
Arguments t F : clear implicits.
End RetrievalEngine.

(** ** Benchmarks ([retrieval_benchmark.py]) *)

Record RetrievalBenchmarkCase : Type := {
  case_id : string;
  case_bundle : KnowledgeBundle;
  case_query : string;
  case_relevant_ids : list string;
  case_top_k : Z
}.

Record RetrievalBenchmarkResult (F : Type) : Type := {
  result_case_id : string;
  result_hits : list (RetrievalHit F);
  precision_at_k : F;
  recall_at_k : F;
  relevant_found : list string
}.
Arguments result_case_id {F}.
Arguments result_hits {F}.
Arguments precision_at_k {F}.
Arguments recall_at_k {F}.
Arguments relevant_found {F}.

Record RetrievalBenchmarkSuite (F : Type) : Type := {
  results : list (RetrievalBenchmarkResult F);
  suite_macro_precision : F;
  suite_macro_recall : F
}.
Arguments results {F}.
Arguments suite_macro_precision {F}.
Arguments suite_macro_recall {F}.

Record AdapterBenchmarkResult (F : Type) : Type := {
  adapter : string;
  suite : RetrievalBenchmarkSuite F;
  duration_ms : F
}.
Arguments adapter {F}.
Arguments suite {F}.
Arguments duration_ms {F}.

Record AutomatedBenchmarkSummary (F : Type) : Type := {
  runs : list (AdapterBenchmarkResult F);
  macro_precision : F;
  macro_recall : F;
  history : option (list (AdapterBenchmarkResult F))
}.
Arguments runs {F}.
Arguments macro_precision {F}.
Arguments macro_recall {F}.
Arguments history {F}.

(** [len(l)] as a Python integer. *)
Definition len {A : Type} (l : list A) : Z := Z.of_nat (List.length l).

Module RetrievalBenchmarkRunner.
Section WithFloat.
Context {F : Type} `{PyFloat F}.

Record t : Type := { engine : RetrievalEngine.t F }.

(** [RetrievalBenchmarkRunner(engine)]; an absent engine is a default
    [RetrievalEngine()]. *)
Definition init (engine : option (RetrievalEngine.t F)) : t :=
  {| engine := match engine with
               | Some e => e
               | None => RetrievalEngine.init None (of_int 0) (of_int 0)
               end |}.

(** The body of the loop of [run] for one case: the engine it leaves and
    the result it appends. The true division of two lengths is the
    division of their conversions, which are exact below 2^53. *)
Definition run_case (engine : RetrievalEngine.t F) (case : RetrievalBenchmarkCase)
    : RetrievalEngine.t F * RetrievalBenchmarkResult F :=
  let engine := RetrievalEngine.reset engine in
  let engine := snd (RetrievalEngine.ingest_bundle engine (case_bundle case)) in
  let hits := hits (RetrievalEngine.query engine (case_query case) (case_top_k case)) in
  let hit_ids := map hit_id hits in
  let relevant_found :=
    filter (fun hid => PySeq.mem hid (case_relevant_ids case)) hit_ids in
  let precision :=
    pyround (fdiv (of_int (len relevant_found)) (of_int (Z.max (len hits) 1))) 4 in
  let recall :=
    pyround (fdiv (of_int (len relevant_found))
                  (of_int (Z.max (len (case_relevant_ids case)) 1))) 4 in
  (engine,
   {| result_case_id := case_id case;
      result_hits := hits;
      precision_at_k := precision;
      recall_at_k := recall;
      relevant_found := relevant_found |}).

Definition run_loop (state : RetrievalEngine.t F * list (RetrievalBenchmarkResult F))
    (case : RetrievalBenchmarkCase)
    : RetrievalEngine.t F * list (RetrievalBenchmarkResult F) :=
  let (engine, result) := run_case (fst state) case in
  (engine, snd state ++ [result]).

Definition run (self : t) (cases : list RetrievalBenchmarkCase)
    : RetrievalBenchmarkSuite F * t :=
  let (engine, per_case) := fold_left run_loop cases (engine self, []) in
  let macro_precision :=
    pyround (fdiv (fsum (map precision_at_k per_case))
                  (of_int (Z.max (len per_case) 1))) 4 in
  let macro_recall :=
    pyround (fdiv (fsum (map recall_at_k per_case))
                  (of_int (Z.max (len per_case) 1))) 4 in
  ({| results := per_case;
      suite_macro_precision := macro_precision;
      suite_macro_recall := macro_recall |},
   {| engine := engine |}).

End WithFloat.
Arguments t F : clear implicits.
End RetrievalBenchmarkRunner.

Definition entry (id body : string) (tags : list string) : Entry :=
  {| entry_id := id; entry_body := body; entry_tags := tags; entry_sources := [] |}.

(** The three cases of [default_benchmark_cases], in order. *)
Definition research_diagram : RetrievalBenchmarkCase :=
  {| case_id := "research-diagram";
     case_query := "attention diagram for transformers";
     case_relevant_ids := ["text-transformer"; "image-attention"];
     case_top_k := 3;
     case_bundle := from_texts
       [ entry "text-transformer"
               "Transformer paper overview with attention diagrams and layer norms"
               ["nlp"; "attention"];
         entry "text-cv"
               "CNN architecture with pooling layers and feature maps"
               ["cv"] ]
       [ entry "image-attention"
               "A heatmap showing transformer attention weights over tokens"
               ["attention"; "visualization"] ]
       [] |}.

Definition speech_notes : RetrievalBenchmarkCase :=
  {| case_id := "speech-notes";
     case_query := "meeting audio summary";
     case_relevant_ids := ["audio-brief"; "text-minutes"];
     case_top_k := 3;
     case_bundle := from_texts
       [ entry "text-minutes"
               "Minutes from the design review covering latency and throughput"
               ["meeting"; "summary"];
         entry "text-rfc"
               "RFC draft with protocol changes unrelated to meetings"
               ["rfc"] ]
       []
       [ entry "audio-brief"
               "Quick audio brief recapping the meeting takeaways and action items"
               ["meeting"; "audio"] ] |}.

Definition hardware_lab : RetrievalBenchmarkCase :=
  {| case_id := "hardware-lab";
     case_query := "oscilloscope waveform and capacitor";
     case_relevant_ids := ["image-scope"; "text-capacitor"];
     case_top_k := 3;
     case_bundle := from_texts
       [ entry "text-capacitor"
               "Lab note describing capacitor discharge curves and RC timing"
               ["hardware"; "capacitor"];
         entry "text-mlp"
               "Feedforward MLP architecture for classification"
               ["ml"] ]
       [ entry "image-scope"
               "Oscilloscope photo showing a decaying sine waveform"
               ["hardware"; "waveform"] ]
       [] |}.

Definition default_benchmark_cases : list RetrievalBenchmarkCase :=
  [research_diagram; speech_notes; hardware_lab].

(** A zero-argument callable that builds an engine. *)
Definition Factory (F : Type) : Type := unit -> RetrievalEngine.t F.

Definition default_adapter_factories {F : Type} `{PyFloat F}
    : list (string * Factory F) :=
  [ ("baseline_bow", fun _ => RetrievalEngine.init None (of_int 0) (of_int 0));
    ("tag_bias", fun _ => RetrievalEngine.init None (literal 2 10) (of_int 0));
    ("source_bias", fun _ => RetrievalEngine.init None (of_int 0) (literal 5 100)) ].

Module AutomatedBenchmarkRunner.
Section WithFloat.
Context {F : Type} `{PyFloat F}.

(** [adapters] is a mapping in insertion order; [_history] is the content
    of the deque, oldest first, and [history_limit] its [maxlen]. *)
Record t : Type := {
  adapters : list (string * Factory F);
  history_limit : Z;
  _history : list (AdapterBenchmarkResult F)
}.

(** Construction followed by [__post_init__]: an absent or empty mapping
    is replaced by the default factories; [deque(maxlen=history_limit)]
    raises [ValueError] on a negative limit, so no runner is built. *)
Definition init (adapters : option (list (string * Factory F))) (history_limit : Z)
    : option t :=
  if history_limit <? 0 then None
  else Some {| adapters := match adapters with
                           | Some (a :: rest) => a :: rest
                           | Some [] | None => default_adapter_factories
                           end;
               history_limit := history_limit;
               _history := [] |}.

(** [self.adapters.get(name)]: the factory registered under [name]. *)
Fixpoint lookup (adapters : list (string * Factory F)) (name : string)
    : option (Factory F) :=
  match adapters with
  | [] => None
  | (k, f) :: rest => if String.eqb k name then Some f else lookup rest name
  end.

(** The state of the loop of [run_all]: the runs so far, the history and
    the number of readings of [perf_counter] taken. *)
Record loop_state : Type := {
  ls_runs : list (AdapterBenchmarkResult F);
  ls_history : list (AdapterBenchmarkResult F);
  ls_ticks : nat
}.

(** The body of the loop of [run_all]. [perf_counter n] is the [n]-th
    reading of the clock during the call. *)
Definition run_adapter (self : t) (perf_counter : nat -> F)
    (cases : list RetrievalBenchmarkCase) (track_history : bool)
    (st : loop_state) (name : string) : loop_state :=
  match lookup (adapters self) name with
  | None => st
  | Some factory =>
      let engine := factory tt in
      let runner := RetrievalBenchmarkRunner.init (Some engine) in
      let start := perf_counter (ls_ticks st) in
      let suite := fst (RetrievalBenchmarkRunner.run runner cases) in
      let stop := perf_counter (S (ls_ticks st)) in
      let duration_ms := pyround (fmul (fsub stop start) (of_int 1000)) 2 in
      let result := {| adapter := name; suite := suite; duration_ms := duration_ms |} in
      {| ls_runs := ls_runs st ++ [result];
         ls_history :=
           if track_history
           then PySeq.deque_append (Z.to_nat (history_limit self)) (ls_history st) result
           else ls_history st;
         ls_ticks := S (S (ls_ticks st)) |}
  end.

Definition run_all (self : t) (perf_counter : nat -> F)
    (cases : list RetrievalBenchmarkCase) (adapter_names : option (list string))
    (track_history : bool) : AutomatedBenchmarkSummary F * t :=
  let names := match adapter_names with
               | Some (n :: rest) => n :: rest
               | Some [] | None => map fst (adapters self)
               end in
  let st := fold_left (run_adapter self perf_counter cases track_history) names
              {| ls_runs := []; ls_history := _history self; ls_ticks := 0 |} in
  let runs := ls_runs st in
  let macro_precision :=
    pyround (fdiv (fsum (map (fun r => suite_macro_precision (suite r)) runs))
                  (of_int (Z.max (len runs) 1))) 4 in
  let macro_recall :=
    pyround (fdiv (fsum (map (fun r => suite_macro_recall (suite r)) runs))
                  (of_int (Z.max (len runs) 1))) 4 in
  ({| runs := runs;
      macro_precision := macro_precision;
      macro_recall := macro_recall;
      history := if track_history then Some (ls_history st) else None |},
   {| adapters := adapters self;
      history_limit := history_limit self;
      _history := ls_history st |}).

End WithFloat.
Arguments t F : clear implicits.
End AutomatedBenchmarkRunner.

(** * Properties *)

(** ** Sequences *)

Lemma slice_to_length {A : Type} (k : Z) (l : list A) :
  len (PySeq.slice_to k l) =
  if k <? 0 then Z.max 0 (len l + k) else Z.min k (len l).
Proof.
  unfold PySeq.slice_to, len.
  destruct (k <? 0) eqn:E; rewrite length_firstn.
  - apply Z.ltb_lt in E. lia.
  - apply Z.ltb_ge in E. lia.
Qed.

Lemma slice_to_full {A : Type} (k : Z) (l : list A) :
  len l <= k -> PySeq.slice_to k l = l.
Proof.
  unfold PySeq.slice_to, len. intros Hk.
  destruct (k <? 0) eqn:E.
  - apply Z.ltb_lt in E. lia.
  - apply firstn_all2. lia.
Qed.

Lemma slice_to_prefix {A : Type} (k : Z) (l : list A) :
  exists rest, l = PySeq.slice_to k l ++ rest.
Proof.
  unfold PySeq.slice_to.
  destruct (k <? 0); eexists; symmetry; apply firstn_skipn.
Qed.

Lemma slice_to_incl {A : Type} (k : Z) (l : list A) (x : A) :
  In x (PySeq.slice_to k l) -> In x l.
Proof.
  destruct (slice_to_prefix k l) as [rest E]. intros Hin.
  rewrite E. apply in_or_app. now left.
Qed.


(** ** Sorting *)

Section Sorting.
Context {F : Type} `{PyFloat F} {A : Type} (key : A -> F).


Lemma insert_desc_perm (x : A) (l : list A) :
  Permutation (insert_desc key x l) (x :: l).
Proof.
  induction l as [ | y l IH]; simpl; [reflexivity | ].
  destruct (flt (key x) (key y)); [ | reflexivity].
  rewrite IH. apply perm_swap.
Qed.

Lemma sorted_desc_perm (l : list A) : Permutation (sorted_desc key l) l.
Proof.
  induction l as [ | x l IH]; simpl; [reflexivity | ].
  rewrite insert_desc_perm. now constructor.
Qed.

Lemma sorted_desc_length (l : list A) : len (sorted_desc key l) = len l.
Proof.
  unfold len. now rewrite (Permutation_length (sorted_desc_perm l)).
Qed.



End Sorting.

(** ** The index *)

Section IndexFacts.
Context {F : Type} `{PyFloat F}.

Lemma index_query_length (self : InMemoryVectorIndex.t F) (text : string) (top_k : Z) :
  len (InMemoryVectorIndex.query self text top_k) =
  if top_k <? 0 then Z.max 0 (len (InMemoryVectorIndex._docs self) + top_k)
  else Z.min top_k (len (InMemoryVectorIndex._docs self)).
Proof.
  unfold InMemoryVectorIndex.query.
  rewrite slice_to_length, sorted_desc_length.
  unfold len. now rewrite length_map.
Qed.

Lemma index_query_from_docs (self : InMemoryVectorIndex.t F) (text : string)
    (top_k : Z) (r : RetrievalHit F) :
  In r (InMemoryVectorIndex.query self text top_k) ->
  exists d, In d (InMemoryVectorIndex._docs self) /\
            r = InMemoryVectorIndex.score_doc (embed_text text) d.
Proof.
  unfold InMemoryVectorIndex.query. intros Hin.
  apply slice_to_incl in Hin.
  apply (Permutation_in _ (sorted_desc_perm hit_score _)) in Hin.
  apply in_map_iff in Hin. destruct Hin as [d [Hd Hin]]. now exists d.
Qed.

End IndexFacts.

(** Two doubles that differ, by their decoded sign, mantissa and exponent. *)
Ltac float_neq :=
  let E := fresh "E" in
  intros E; apply (f_equal Prim2SF) in E; vm_compute in E; discriminate E.

(** An index holding two documents, built by two calls of [add]. *)
Definition two_docs_index : InMemoryVectorIndex.t float :=
  InMemoryVectorIndex.add
    (InMemoryVectorIndex.add InMemoryVectorIndex.init
       "d1" "red apple" "red apple" [] Text [])
    "d2" "green pear" "green pear" [] Text [].

(** C3, as stated, fails for a negative [top_k]: on an index of two
    documents [query("apple", -1)] returns one hit (the slice [[:-1]]
    drops the last element), which is neither empty nor within
    [min(top_k, document_count) = -1]. *)
Lemma index_query_negative_top_k :
  -1 <= 0 /\
  map hit_id (InMemoryVectorIndex.query two_docs_index "apple" (-1)) = ["d1"] /\
  InMemoryVectorIndex.query two_docs_index "apple" (-1) <> [] /\
  ~ (len (InMemoryVectorIndex.query two_docs_index "apple" (-1))
     <= Z.min (-1) (len (InMemoryVectorIndex._docs two_docs_index))).
Proof.
  split; [lia | ]. split; [now vm_compute | ]. split.
  - intros E. apply (f_equal (map hit_id)) in E. vm_compute in E. discriminate E.
  - rewrite index_query_length. vm_compute. intros Hle. now apply Hle.
Qed.

(** C3 (amended): [InMemoryVectorIndex.query(text, top_k)] returns exactly
    [min(top_k, document_count)] hits for every [top_k >= 0], hence none
    for [top_k = 0] and never more than [top_k] or than the number of
    documents; for a negative [top_k] the slice [[:top_k]] drops the last
    [-top_k] hits and [max(document_count + top_k, 0)] are returned. *)
Theorem index_query_top_k_bound {F : Type} `{PyFloat F}
    (self : InMemoryVectorIndex.t F) (text : string) (top_k : Z) :
  len (InMemoryVectorIndex.query self text top_k) =
    (if top_k <? 0
     then Z.max 0 (len (InMemoryVectorIndex._docs self) + top_k)
     else Z.min top_k (len (InMemoryVectorIndex._docs self)))
  /\ InMemoryVectorIndex.query self text 0 = []
  /\ Forall (fun r => exists d, In d (InMemoryVectorIndex._docs self)
                                /\ hit_id r = doc_id d)
            (InMemoryVectorIndex.query self text top_k).
Proof.
  split; [apply index_query_length | ]. split.
  - pose proof (index_query_length self text 0) as E. simpl in E.
    destruct (InMemoryVectorIndex.query self text 0); [reflexivity | ].
    unfold len in E. simpl in E. lia.
  - apply Forall_forall. intros r Hr.
    destruct (index_query_from_docs _ _ _ _ Hr) as [d [Hd ->]]. now exists d.
Qed.

(** ** The engine *)

Section EngineFacts.
Context {F : Type} `{PyFloat F}.

(** The adjusted score of §4.3 for a raw score [raw]. *)
Definition adjusted_score (self : RetrievalEngine.t F) (query_tokens tags sources : list string)
    (raw : F) : F :=
  pyround
    (fadd (fadd raw
                (fmul (RetrievalEngine.tag_boost self)
                      (of_int (PySeq.inter_size query_tokens tags))))
          (match sources with
           | [] => of_int 0
           | _ :: _ => RetrievalEngine.source_boost self
           end))
    4.

Lemma adjust_score (self : RetrievalEngine.t F) (qt : list string) (r : RetrievalHit F) :
  hit_score (RetrievalEngine.adjust self qt r) =
  adjusted_score self qt (hit_tags r) (hit_sources r) (hit_score r).
Proof. reflexivity. Qed.

Lemma engine_query_from_index (self : RetrievalEngine.t F) (text : string)
    (top_k : Z) (h : RetrievalHit F) :
  In h (hits (RetrievalEngine.query self text top_k)) ->
  exists r, In r (InMemoryVectorIndex.query (RetrievalEngine.index self) text top_k)
            /\ h = RetrievalEngine.adjust self (_tokenize text) r.
Proof.
  unfold RetrievalEngine.query. simpl. intros Hin.
  apply slice_to_incl in Hin.
  apply (Permutation_in _ (sorted_desc_perm hit_score _)) in Hin.
  apply in_map_iff in Hin. destruct Hin as [r [Hr Hin]]. now exists r.
Qed.


Lemma engine_query_length (self : RetrievalEngine.t F) (text : string) (top_k : Z) :
  len (hits (RetrievalEngine.query self text top_k)) =
  let n := len (InMemoryVectorIndex.query (RetrievalEngine.index self) text top_k) in
  if top_k <? 0 then Z.max 0 (n + top_k) else n.
Proof.
  unfold RetrievalEngine.query. simpl.
  rewrite slice_to_length, sorted_desc_length.
  unfold len at 1 2. rewrite length_map. fold (len (InMemoryVectorIndex.query (RetrievalEngine.index self) text top_k)).
  rewrite index_query_length.
  destruct (top_k <? 0) eqn:E; [reflexivity | ].
  apply Z.ltb_ge in E. lia.
Qed.

End EngineFacts.



(** ** Stable sorting *)

Section StableSort.
Context {F : Type} `{PyFloat F} {A : Type} (key : A -> F).











End StableSort.






(** ** The tokenizer *)

(** A run returned by [split]: not empty and free of whitespace. *)
Definition is_run (t : list ascii) : Prop :=
  t <> [] /\ Forall (fun c => PyStr.isspace c = false) t.

Lemma is_run_rev (t : list ascii) : is_run t -> is_run (rev t).
Proof.
  intros [Hne Hall]. split.
  - intros E. apply Hne. rewrite <- (rev_involutive t), E. reflexivity.
  - now apply Forall_rev.
Qed.

Lemma lstrip_run (t : list ascii) :
  is_run t -> PyStr.lstrip_chars PyStr.isspace t = t.
Proof.
  intros [Hne Hall]. destruct t as [ | c t]; [reflexivity | ].
  simpl. inversion Hall as [ | ? ? Hc _]; subst. now rewrite Hc.
Qed.

Lemma strip_run (t : list ascii) :
  is_run t -> PyStr.strip_chars PyStr.isspace t = t.
Proof.
  intros Ht. unfold PyStr.strip_chars.
  rewrite (lstrip_run t Ht), (lstrip_run _ (is_run_rev t Ht)).
  apply rev_involutive.
Qed.

Lemma split_runs_are_runs (s cur : list ascii) :
  Forall (fun c => PyStr.isspace c = false) cur ->
  Forall is_run (PyStr.split_runs cur s).
Proof.
  revert cur. induction s as [ | c s IH]; simpl; intros cur Hcur.
  - destruct cur as [ | c0 cur']; constructor; [ | constructor].
    apply is_run_rev. split; [discriminate | assumption].
  - destruct (PyStr.isspace c) eqn:Ec.
    + destruct cur as [ | c0 cur'].
      * apply IH. constructor.
      * constructor; [ | apply IH; constructor].
        apply is_run_rev. split; [discriminate | assumption].
    + apply IH. now constructor.
Qed.


(** The filter [if t.strip()] of [_tokenize] keeps every token: what
    [split] returns is never empty and holds no whitespace. *)
Lemma tokenize_filter_keeps_all (text : string) :
  filter (fun t => PyStr.truthy (PyStr.strip_ws t)) (PyStr.split text)
  = PyStr.split text.
Proof.
  unfold PyStr.split.
  pose proof (split_runs_are_runs (list_ascii_of_string text) [] (Forall_nil _)) as Hruns.
  induction Hruns as [ | t l Ht _ IH]; simpl; [reflexivity | ].
  unfold PyStr.strip_ws at 1.
  rewrite list_ascii_of_string_of_list_ascii, (strip_run t Ht).
  destruct t as [ | c t]; [now destruct Ht | ]. simpl. now rewrite IH.
Qed.

Lemma tokenize_length (text : string) :
  List.length (_tokenize text) = List.length (PyStr.split text).
Proof.
  unfold _tokenize. now rewrite tokenize_filter_keeps_all, length_map.
Qed.


(** A string of three full stops, and the word [hi] between double quotes. *)
Definition dots : string := "...".
Definition quoted_hi : string :=
  String "034"%char ("hi" ++ String "034"%char EmptyString).

(** C6: the code at the failing inputs. The text ["..."] is one token that
    [strip] empties; the filter tests [t.strip()] (whitespace only), keeps
    it, and [embed_text] returns the vector [{"": 1.0}] instead of the
    empty one. The double quote is not in the stripped set (the source
    writes two adjacent literals where an escaped quote was meant), so the
    token of ["hi"] in double quotes keeps its quotes. *)
Lemma tokenize_keeps_emptied_tokens :
  _tokenize dots = [""]
  /\ @embed_text float _ dots = [("", of_int 1)]
  /\ PyStr.mem_char strip_set "034"%char = false
  /\ _tokenize quoted_hi = [quoted_hi]
  /\ (forall text, List.length (_tokenize text) = List.length (PyStr.split text)).
Proof.
  repeat split; try (vm_compute; reflexivity). apply tokenize_length.
Qed.

(** ** Counting and normalizing *)

Lemma counter_incr_counts (tok : string) (c : list (string * Z)) :
  Forall (fun kv => 1 <= snd kv) c ->
  Forall (fun kv => 1 <= snd kv) (counter_incr tok c).
Proof.
  induction 1 as [ | [k v] c Hv Hc IH]; simpl.
  - repeat constructor. simpl. lia.
  - destruct (String.eqb k tok); constructor; simpl in *; try assumption; lia.
Qed.


Lemma fold_counter_counts (tokens : list string) (c : list (string * Z)) :
  Forall (fun kv => 1 <= snd kv) c ->
  Forall (fun kv => 1 <= snd kv) (fold_left (fun c tok => counter_incr tok c) tokens c).
Proof.
  revert c. induction tokens as [ | tok tokens IH]; simpl; intros c Hc; [assumption | ].
  apply IH. now apply counter_incr_counts.
Qed.


(** Every count of a [Counter] is at least 1. *)
Lemma Counter_counts (tokens : list string) :
  Forall (fun kv => 1 <= snd kv) (Counter tokens).
Proof. apply fold_counter_counts. constructor. Qed.


Lemma fold_add_squares (c : list (string * Z)) (a : Z) :
  Forall (fun kv => 1 <= snd kv) c ->
  a + len c <= fold_left Z.add (map (fun kv => snd kv * snd kv) c) a.
Proof.
  unfold len. intros Hc. revert a.
  induction Hc as [ | [k v] c Hv _ IH]; simpl List.length; simpl; intros a; [lia | ].
  specialize (IH (a + v * v)). simpl in Hv. nia.
Qed.


(** ** The sign of a binary64 result

    The operations of binary64 that the source applies to counts and
    lengths never produce a negative value: whatever is rounded, the
    result carries the sign it was given, or is NaN. *)

Definition sign_or_nan (s : bool) (x : spec_float) : Prop :=
  match x with
  | S754_nan => True
  | S754_zero s' | S754_infinity s' | S754_finite s' _ _ => s' = s
  end.

Lemma binary_round_aux_sign (s : bool) (m e : Z) (l : location) :
  sign_or_nan s (binary_round_aux prec emax s m e l).
Proof.
  unfold binary_round_aux.
  destruct (shr_fexp prec emax m e l) as [mrs' e'].
  destruct (shr_fexp prec emax _ e' loc_Exact) as [mrs'' e''].
  destruct (shr_m mrs'') as [ | p | p]; [ | destruct (e'' <=? emax - prec) | ];
    unfold sign_or_nan; trivial.
Qed.

Lemma binary_round_sign (s : bool) (m : positive) (e : Z) :
  sign_or_nan s (binary_round prec emax s m e).
Proof.
  unfold binary_round. destruct (shl_align _ _ _) as [mz ez].
  apply binary_round_aux_sign.
Qed.

Lemma binary_normalize_sign (m e : Z) :
  0 <= m -> sign_or_nan false (binary_normalize prec emax m e false).
Proof.
  intros Hm. destruct m as [ | p | p]; cbn [binary_normalize].
  - reflexivity.
  - apply binary_round_sign.
  - lia.
Qed.

Lemma SF2Prim_sign (x : spec_float) :
  sign_or_nan false x -> sign_or_nan false (Prim2SF (SF2Prim x)).
Proof.
  destruct x as [s | s | | s m e]; unfold sign_or_nan; intros Hs; subst;
    try (vm_compute; exact I); try (vm_compute; reflexivity).
  cbn [SF2Prim]. rewrite Z_ldexp_spec, of_uint63_spec.
  pose proof (Uint63.to_Z_bounded (Uint63.of_Z (Z.pos m))) as Hb.
  pose proof (binary_normalize_sign (Uint63.to_Z (Uint63.of_Z (Z.pos m))) 0 (proj1 Hb)) as Hn.
  destruct (binary_normalize prec emax _ 0 false) as [s' | s' | | s' m' e'];
    unfold SFldexp, sign_or_nan in *; try assumption.
  subst s'. apply binary_round_sign.
Qed.

Lemma of_int_sign (z : Z) : 0 <= z -> sign_or_nan false (Prim2SF (F64.of_int z)).
Proof.
  intros Hz. unfold F64.of_int. now apply SF2Prim_sign, binary_normalize_sign.
Qed.

Lemma div_sign (x y : float) :
  sign_or_nan false (Prim2SF x) -> sign_or_nan false (Prim2SF y) ->
  sign_or_nan false (Prim2SF (x / y)).
Proof.
  rewrite div_spec. unfold SF64div, SFdiv.
  destruct (Prim2SF x) as [sx | sx | | sx mx ex], (Prim2SF y) as [sy | sy | | sy my ey];
    unfold sign_or_nan; intros Hx Hy; subst; try reflexivity; try exact I.
  destruct (SFdiv_core_binary _ _ _ _ _ _) as [[mz ez] lz].
  apply binary_round_aux_sign.
Qed.


Lemma div_half_even_nonneg (num den : Z) :
  0 <= num -> 0 < den -> 0 <= F64.div_half_even num den.
Proof.
  intros Hn Hd. unfold F64.div_half_even.
  assert (0 <= num / den) as Hq by (apply Z.div_pos; lia).
  destruct (2 * (num mod den) ?= den); [destruct (Z.even (num / den)) | | ]; lia.
Qed.

Lemma scaled_magnitude_nonneg (m : positive) (e : Z) (d : nat) :
  0 <= F64.scaled_magnitude m e d.
Proof.
  unfold F64.scaled_magnitude.
  assert (0 < 10 ^ Z.of_nat d) as Hp by (apply Z.pow_pos_nonneg; lia).
  destruct (0 <=? e) eqn:E.
  - apply Z.leb_le in E. assert (0 < 2 ^ e) by (apply Z.pow_pos_nonneg; lia). nia.
  - apply Z.leb_gt in E. apply div_half_even_nonneg; [nia | ].
    apply Z.pow_pos_nonneg; lia.
Qed.

Lemma pyround_sign (x : float) (d : nat) :
  sign_or_nan false (Prim2SF x) -> sign_or_nan false (Prim2SF (F64.pyround x d)).
Proof.
  intros Hx. unfold F64.pyround.
  destruct (Prim2SF x) as [sx | sx | | sx mx ex] eqn:E; try (now rewrite E).
  unfold sign_or_nan in Hx. subst sx.
  destruct (_ <? _); [ | now rewrite E].
  apply div_sign; apply of_int_sign.
  - apply scaled_magnitude_nonneg.
  - apply Z.pow_nonneg. lia.
Qed.

(** A value that carries no minus sign is not below zero. *)
Lemma sign_not_negative (x : float) :
  sign_or_nan false (Prim2SF x) -> PrimFloat.ltb x 0 = false.
Proof.
  rewrite ltb_spec. unfold SFltb.
  change (Prim2SF 0) with (S754_zero false).
  destruct (Prim2SF x) as [sx | sx | | sx mx ex]; cbn [sign_or_nan SFcompare];
    intros Hx; subst; reflexivity.
Qed.

(** ** Ratios of two lengths in binary64

    The metrics of the benchmark and of the orchestration are quotients
    of two lengths rounded to 4 decimals. Their values in binary64 are
    settled by evaluation, for lengths up to [size_bound]. *)

(** [round(a / b, 4)] for two lengths [a] and [b]. *)
Definition ratio4 (a b : Z) : float :=
  @pyround float _ (fdiv (of_int a) (of_int b)) 4.

Definition size_bound : Z := 100.

Definition zrange (n : nat) : list Z := map Z.of_nat (seq 0 n).

(** Every element is at most each of the later ones, and none is NaN. *)
Fixpoint ascending (l : list float) : bool :=
  match l with
  | [] => true
  | x :: l' => PrimFloat.leb x x && forallb (PrimFloat.leb x) l' && ascending l'
  end.

Definition entry_ok (b : Z) (ar : Z * float) : bool :=
  let (a, r) := ar in
  PrimFloat.leb 0 r
  && ((b <? a) || PrimFloat.leb r 1)
  && (negb (a =? 0) || PrimFloat.Leibniz.eqb r 0)
  && Bool.eqb (PrimFloat.ltb r (literal 5 10)) (2 * a <? b).

(** The row of the denominator [b]: the numerators 0 to [size_bound]. *)
Definition row_ok (b : Z) : bool :=
  let row := map (fun a => ratio4 a b) (zrange (S (Z.to_nat size_bound))) in
  ascending row
  && forallb (entry_ok b) (combine (zrange (S (Z.to_nat size_bound))) row).

Lemma table_checked :
  forallb (fun b => row_ok (b + 1)) (zrange (Z.to_nat size_bound)) = true.
Proof. vm_compute. reflexivity. Qed.

Lemma zrange_In (n : nat) (z : Z) : 0 <= z < Z.of_nat n -> In z (zrange n).
Proof.
  intros Hz. unfold zrange. apply in_map_iff. exists (Z.to_nat z).
  split; [lia | ]. apply in_seq. lia.
Qed.

Lemma zrange_nth (n i : nat) (d : Z) : (i < n)%nat -> nth i (zrange n) d = Z.of_nat i.
Proof.
  intros Hi. unfold zrange.
  rewrite (nth_indep _ d (Z.of_nat 0)) by (now rewrite length_map, length_seq).
  rewrite map_nth, seq_nth by exact Hi. reflexivity.
Qed.

Lemma combine_map_self {A B : Type} (f : A -> B) (l : list A) :
  combine l (map f l) = map (fun x => (x, f x)) l.
Proof. induction l as [ | x l IH]; cbn [map combine]; [reflexivity | now rewrite IH]. Qed.

Lemma ascending_nth (l : list float) (d : float) (i j : nat) :
  ascending l = true -> (i <= j < List.length l)%nat ->
  PrimFloat.leb (nth i l d) (nth j l d) = true.
Proof.
  revert i j. induction l as [ | x l IH]; intros i j Hasc Hij; [cbn in Hij; lia | ].
  cbn [ascending] in Hasc. apply andb_prop in Hasc. destruct Hasc as [Hx Hl].
  apply andb_prop in Hx. destruct Hx as [Hxx Hxl].
  destruct i as [ | i], j as [ | j]; cbn [nth]; cbn [List.length] in Hij.
  - exact Hxx.
  - rewrite forallb_forall in Hxl. apply Hxl, nth_In. lia.
  - lia.
  - apply IH; [exact Hl | lia].
Qed.

Lemma forallb_zrange (f : Z -> bool) (n : nat) (z : Z) :
  forallb f (zrange n) = true -> 0 <= z < Z.of_nat n -> f z = true.
Proof.
  intros Hall Hz. rewrite forallb_forall in Hall. now apply Hall, zrange_In.
Qed.

Lemma row_checked (b : Z) : 1 <= b <= size_bound -> row_ok b = true.
Proof.
  intros Hb.
  pose proof (forallb_zrange (fun b => row_ok (b + 1)) (Z.to_nat size_bound) (b - 1)
                table_checked) as Ht.
  cbv beta in Ht. replace (b - 1 + 1) with b in Ht by lia.
  apply Ht. rewrite Z2Nat.id; unfold size_bound in *; lia.
Qed.

(** What the table settles for one quotient. *)
Lemma ratio4_facts (a b : Z) :
  0 <= a <= size_bound -> 1 <= b <= size_bound ->
  PrimFloat.leb 0 (ratio4 a b) = true
  /\ (a <= b -> PrimFloat.leb (ratio4 a b) 1 = true)
  /\ (a = 0 -> ratio4 a b = 0%float)
  /\ PrimFloat.ltb (ratio4 a b) (literal 5 10) = (2 * a <? b).
Proof.
  intros Ha Hb. pose proof (row_checked b Hb) as Hrow.
  unfold row_ok in Hrow. cbv zeta in Hrow.
  apply andb_prop in Hrow. destruct Hrow as [_ Hrow].
  rewrite combine_map_self, forallb_forall in Hrow.
  specialize (Hrow (a, ratio4 a b)).
  assert (entry_ok b (a, ratio4 a b) = true) as He.
  { apply Hrow. apply in_map_iff. exists a. split; [reflexivity | ].
    apply zrange_In. unfold size_bound in *. lia. }
  unfold entry_ok in He.
  apply andb_prop in He. destruct He as [He H4].
  apply andb_prop in He. destruct He as [He H3].
  apply andb_prop in He. destruct He as [H1 H2].
  split; [exact H1 | ]. split; [ | split].
  - intros Hab. destruct (b <? a) eqn:E; [apply Z.ltb_lt in E; lia | exact H2].
  - intros ->. cbn [Z.eqb negb orb] in H3. now apply FloatAxioms.Leibniz.eqb_spec in H3.
  - now apply Bool.eqb_prop in H4.
Qed.

Lemma ratio4_mono (a a' b : Z) :
  0 <= a <= a' -> a' <= size_bound -> 1 <= b <= size_bound ->
  PrimFloat.leb (ratio4 a b) (ratio4 a' b) = true.
Proof.
  intros Ha Ha' Hb. pose proof (row_checked b Hb) as Hrow.
  unfold row_ok in Hrow. cbv zeta in Hrow.
  apply andb_prop in Hrow. destruct Hrow as [Hasc _].
  pose proof (ascending_nth _ 0%float (Z.to_nat a) (Z.to_nat a') Hasc) as Hle.
  rewrite length_map in Hle. unfold zrange at 1 in Hle. rewrite length_map, length_seq in Hle.
  assert (forall i, (i < S (Z.to_nat size_bound))%nat ->
             nth i (map (fun a => ratio4 a b) (zrange (S (Z.to_nat size_bound)))) 0%float
             = ratio4 (Z.of_nat i) b) as Hnth.
  { intros i Hi.
    rewrite (nth_indep _ 0%float (ratio4 0 b))
      by (rewrite length_map; unfold zrange; now rewrite length_map, length_seq).
    rewrite (map_nth (fun a => ratio4 a b)), zrange_nth by exact Hi. reflexivity. }
  unfold size_bound in *.
  rewrite !Hnth, !Z2Nat.id in Hle by lia. apply Hle. lia.
Qed.

(** ** Term weights in binary64 *)











Section ExactWeights.
Local Open Scope R_scope.




End ExactWeights.

(** ** Counts of a [Counter] *)












(** ** The benchmark runner *)

Section RunnerFacts.
Context {F : Type} `{PyFloat F}.

(** Two engines with the same boost coefficients. *)
Definition same_boosts (e e' : RetrievalEngine.t F) : Prop :=
  RetrievalEngine.tag_boost e = RetrievalEngine.tag_boost e'
  /\ RetrievalEngine.source_boost e = RetrievalEngine.source_boost e'.

Lemma reset_same_boosts (e e' : RetrievalEngine.t F) :
  same_boosts e e' -> RetrievalEngine.reset e = RetrievalEngine.reset e'.
Proof.
  intros [Ht Hs]. unfold RetrievalEngine.reset, RetrievalEngine.with_index.
  now rewrite Ht, Hs.
Qed.

(** Since a case starts by resetting the engine, what it yields depends
    on the engine through its boosts only. *)
Lemma run_case_same_boosts (e e' : RetrievalEngine.t F) (c : RetrievalBenchmarkCase) :
  same_boosts e e' ->
  RetrievalBenchmarkRunner.run_case e c = RetrievalBenchmarkRunner.run_case e' c.
Proof.
  intros Hb. unfold RetrievalBenchmarkRunner.run_case.
  now rewrite (reset_same_boosts e e' Hb).
Qed.

Lemma run_case_keeps_boosts (e : RetrievalEngine.t F) (c : RetrievalBenchmarkCase) :
  same_boosts (fst (RetrievalBenchmarkRunner.run_case e c)) e.
Proof. split; reflexivity. Qed.

Lemma run_loop_fold (cases : list RetrievalBenchmarkCase) (e : RetrievalEngine.t F)
    (acc : list (RetrievalBenchmarkResult F)) :
  exists e',
    fold_left RetrievalBenchmarkRunner.run_loop cases (e, acc)
    = (e', acc ++ map (fun c => snd (RetrievalBenchmarkRunner.run_case e c)) cases)
    /\ same_boosts e' e.
Proof.
  revert e acc. induction cases as [ | c cases IH]; intros e acc; simpl.
  - exists e. rewrite app_nil_r. repeat split.
  - assert (RetrievalBenchmarkRunner.run_loop (e, acc) c
            = (fst (RetrievalBenchmarkRunner.run_case e c),
               acc ++ [snd (RetrievalBenchmarkRunner.run_case e c)])) as Estep.
    { unfold RetrievalBenchmarkRunner.run_loop. cbn [fst snd].
      now destruct (RetrievalBenchmarkRunner.run_case e c). }
    rewrite Estep.
    destruct (IH (fst (RetrievalBenchmarkRunner.run_case e c))
                 (acc ++ [snd (RetrievalBenchmarkRunner.run_case e c)]))
      as [e' [Hfold Hb]].
    pose proof (run_case_keeps_boosts e c) as Hb1.
    exists e'. split.
    + rewrite Hfold, <- app_assoc. cbn [app]. f_equal.
    + destruct Hb as [Ht Hs], Hb1 as [Ht1 Hs1]. split; congruence.
Qed.

(** The suite that [run] builds from the per-case results. *)
Definition summarize (per_case : list (RetrievalBenchmarkResult F))
    : RetrievalBenchmarkSuite F :=
  {| results := per_case;
     suite_macro_precision :=
       pyround (fdiv (fsum (map precision_at_k per_case))
                     (of_int (Z.max (len per_case) 1))) 4;
     suite_macro_recall :=
       pyround (fdiv (fsum (map recall_at_k per_case))
                     (of_int (Z.max (len per_case) 1))) 4 |}.

(** The suite of [run], case by case. *)
Lemma run_suite (self : RetrievalBenchmarkRunner.t F) (cases : list RetrievalBenchmarkCase) :
  fst (RetrievalBenchmarkRunner.run self cases)
  = summarize (map (fun c => snd (RetrievalBenchmarkRunner.run_case
                                    (RetrievalBenchmarkRunner.engine self) c)) cases).
Proof.
  unfold RetrievalBenchmarkRunner.run.
  destruct (run_loop_fold cases (RetrievalBenchmarkRunner.engine self) []) as [e' [E _]].
  rewrite E. reflexivity.
Qed.

Lemma run_results (self : RetrievalBenchmarkRunner.t F) (cases : list RetrievalBenchmarkCase) :
  results (fst (RetrievalBenchmarkRunner.run self cases))
  = map (fun c => snd (RetrievalBenchmarkRunner.run_case
                         (RetrievalBenchmarkRunner.engine self) c)) cases.
Proof. now rewrite run_suite. Qed.

(** The suite of [run] depends on the engine through its boosts only. *)
Lemma run_same_boosts (self self' : RetrievalBenchmarkRunner.t F)
    (cases : list RetrievalBenchmarkCase) :
  same_boosts (RetrievalBenchmarkRunner.engine self) (RetrievalBenchmarkRunner.engine self') ->
  fst (RetrievalBenchmarkRunner.run self cases)
  = fst (RetrievalBenchmarkRunner.run self' cases).
Proof.
  intros Hb. rewrite !run_suite. f_equal.
  apply map_ext. intros c. now rewrite (run_case_same_boosts _ _ c Hb).
Qed.

(** The documents that [ingest_bundle] leaves in a reset engine carry the
    ids of the slices, in order. *)
Lemma ingest_fold_ids (sl : list KnowledgeSlice) (i : InMemoryVectorIndex.t F) :
  map doc_id (InMemoryVectorIndex._docs (fold_left RetrievalEngine.ingest_slice sl i))
  = map doc_id (InMemoryVectorIndex._docs i) ++ map slice_id sl.
Proof.
  revert i. induction sl as [ | s sl IH]; intros i; simpl.
  - now rewrite app_nil_r.
  - rewrite IH. unfold RetrievalEngine.ingest_slice, InMemoryVectorIndex.add.
    cbn [InMemoryVectorIndex._docs]. rewrite map_app, <- app_assoc. reflexivity.
Qed.

Lemma index_query_ids (self : InMemoryVectorIndex.t F) (text : string) (top_k : Z) :
  exists l, Permutation l (map doc_id (InMemoryVectorIndex._docs self))
            /\ map hit_id (InMemoryVectorIndex.query self text top_k)
               = PySeq.slice_to top_k l.
Proof.
  unfold InMemoryVectorIndex.query.
  exists (map hit_id (sorted_desc hit_score
            (map (InMemoryVectorIndex.score_doc (embed_text text))
                 (InMemoryVectorIndex._docs self)))).
  split.
  - rewrite (Permutation_map hit_id (sorted_desc_perm hit_score _)).
    rewrite map_map. reflexivity.
  - unfold PySeq.slice_to. rewrite length_map.
    destruct (top_k <? 0); symmetry; apply firstn_map.
Qed.

Lemma engine_query_ids (self : RetrievalEngine.t F) (text : string) (top_k : Z) :
  exists l, Permutation l (map hit_id (InMemoryVectorIndex.query
                                         (RetrievalEngine.index self) text top_k))
            /\ map hit_id (hits (RetrievalEngine.query self text top_k))
               = PySeq.slice_to top_k l.
Proof.
  unfold RetrievalEngine.query. simpl.
  set (raw := InMemoryVectorIndex.query (RetrievalEngine.index self) text top_k).
  exists (map hit_id (sorted_desc hit_score
            (map (RetrievalEngine.adjust self (_tokenize text)) raw))).
  split.
  - rewrite (Permutation_map hit_id (sorted_desc_perm hit_score _)).
    rewrite map_map. reflexivity.
  - unfold PySeq.slice_to. rewrite length_map.
    destruct (top_k <? 0); symmetry; apply firstn_map.
Qed.



Lemma relevant_found_le_hits (ids relevant : list string) :
  len (filter (fun hid => PySeq.mem hid relevant) ids) <= len ids.
Proof. unfold len. pose proof (filter_length_le (fun hid => PySeq.mem hid relevant) ids). lia. Qed.


End RunnerFacts.

(** ** Precision and recall *)


(** The runner built by [RetrievalBenchmarkRunner()], in binary64. *)
Definition default_runner : RetrievalBenchmarkRunner.t float :=
  RetrievalBenchmarkRunner.init None.


Lemma ratio4_not_negative (a b : Z) :
  0 <= a -> 0 <= b -> PrimFloat.ltb (ratio4 a b) 0 = false.
Proof.
  intros Ha Hb. apply sign_not_negative. unfold ratio4.
  apply pyround_sign, div_sign; now apply of_int_sign.
Qed.




(** ** The built-in case *)

Lemma filter_perm {A : Type} (f : A -> bool) (l l' : list A) :
  Permutation l l' -> Permutation (filter f l) (filter f l').
Proof.
  induction 1 as [ | x l l' _ IH | x y l | l l' l'' _ IH1 _ IH2]; simpl.
  - constructor.
  - destruct (f x); [now constructor | assumption].
  - destruct (f x), (f y); try reflexivity. apply perm_swap.
  - now transitivity (filter f l').
Qed.

Section WholeCorpus.
Context {F : Type} `{PyFloat F}.

(** When [top_k] is at least the size of the corpus, the hits of a case
    are the whole corpus, in some order. *)
Lemma run_case_hits_whole_corpus (e : RetrievalEngine.t F) (c : RetrievalBenchmarkCase) :
  len (slices (case_bundle c)) <= case_top_k c ->
  Permutation (map hit_id (result_hits (snd (RetrievalBenchmarkRunner.run_case e c))))
              (map slice_id (slices (case_bundle c))).
Proof.
  intros Hk. unfold RetrievalBenchmarkRunner.run_case. cbn [snd result_hits].
  match goal with |- Permutation (map hit_id (hits (RetrievalEngine.query ?e' ?t ?k))) _ =>
    destruct (engine_query_ids e' t k) as [l [Hl ->]];
    destruct (index_query_ids (RetrievalEngine.index e') t k) as [l' [Hl' E']];
    assert (map doc_id (InMemoryVectorIndex._docs (RetrievalEngine.index e'))
            = map slice_id (slices (case_bundle c))) as Eids
  end.
  { unfold RetrievalEngine.ingest_bundle.
    cbn [snd RetrievalEngine.index RetrievalEngine.with_index].
    now rewrite ingest_fold_ids. }
  rewrite Eids in Hl'.
  assert (len l' = len (slices (case_bundle c))) as Hlen'.
  { unfold len. now rewrite (Permutation_length Hl'), length_map. }
  rewrite slice_to_full in E' by lia. rewrite E' in Hl.
  assert (len l = len (slices (case_bundle c))) as Hlen.
  { unfold len in *. rewrite (Permutation_length Hl). lia. }
  rewrite slice_to_full by lia.
  now transitivity l'.
Qed.

End WholeCorpus.

(** C5, as stated, fails: on the built-in case ["research-diagram"] both
    relevant ids are among the three returned hits and are found, yet
    [precision_at_k] is 0.6667, because the third hit ([text-cv]) is not
    relevant; only [recall_at_k] equals 1.0. *)
Lemma research_diagram_precision_is_not_one :
  exists r,
    results (fst (RetrievalBenchmarkRunner.run default_runner [research_diagram])) = [r]
    /\ map hit_id (result_hits r) = ["image-attention"; "text-transformer"; "text-cv"]
    /\ In "text-transformer" (relevant_found r)
    /\ In "image-attention" (relevant_found r)
    /\ recall_at_k r = of_int 1
    /\ precision_at_k r <> of_int 1.
Proof.
  eexists. split; [vm_compute; reflexivity | ].
  split; [reflexivity | ]. cbn [relevant_found recall_at_k precision_at_k].
  split; [right; left; reflexivity | ]. split; [left; reflexivity | ].
  split; [reflexivity | float_neq].
Qed.

(** C5 (amended): whatever engine the runner holds, running it on the
    built-in case ["research-diagram"] returns the three documents of the
    corpus; [relevant_found] holds exactly the two relevant ids,
    [recall_at_k] is 1.0 and [precision_at_k] is 0.6667 (2 relevant hits
    out of 3). With the default engine the hits come in the order
    [image-attention], [text-transformer], [text-cv]. *)
Theorem research_diagram_metrics (e : RetrievalEngine.t float) :
  let r := snd (RetrievalBenchmarkRunner.run_case e research_diagram) in
  results (fst (RetrievalBenchmarkRunner.run
                  (RetrievalBenchmarkRunner.init (Some e)) [research_diagram])) = [r]
  /\ Permutation (map hit_id (result_hits r))
                 ["text-transformer"; "text-cv"; "image-attention"]
  /\ Permutation (relevant_found r) ["text-transformer"; "image-attention"]
  /\ recall_at_k r = of_int 1
  /\ precision_at_k r = literal 6667 10000
  /\ map (fun r => (map hit_id (result_hits r), relevant_found r))
         (results (fst (RetrievalBenchmarkRunner.run default_runner [research_diagram])))
     = [(["image-attention"; "text-transformer"; "text-cv"],
         ["image-attention"; "text-transformer"])].
Proof.
  intros r.
  assert (Permutation (map hit_id (result_hits r))
                      ["text-transformer"; "text-cv"; "image-attention"]) as Hhits.
  { apply (run_case_hits_whole_corpus e research_diagram). vm_compute. discriminate. }
  assert (Permutation (relevant_found r) ["text-transformer"; "image-attention"]) as Hfound.
  { change (relevant_found r)
      with (filter (fun hid => PySeq.mem hid (case_relevant_ids research_diagram))
                   (map hit_id (result_hits r))).
    apply (filter_perm (fun hid => PySeq.mem hid (case_relevant_ids research_diagram)))
      in Hhits. exact Hhits. }
  assert (len (relevant_found r) = 2) as Efound.
  { unfold len. now rewrite (Permutation_length Hfound). }
  assert (len (result_hits r) = 3) as Ehits.
  { unfold len. rewrite <- (length_map hit_id), (Permutation_length Hhits). reflexivity. }
  split; [now rewrite run_results | ].
  split; [exact Hhits | ]. split; [exact Hfound | ].
  split; [ | split].
  - change (recall_at_k r)
      with (@pyround float _
              (fdiv (of_int (len (relevant_found r)))
                    (of_int (Z.max (len (case_relevant_ids research_diagram)) 1))) 4).
    rewrite Efound. vm_compute. reflexivity.
  - change (precision_at_k r)
      with (@pyround float _
              (fdiv (of_int (len (relevant_found r)))
                    (of_int (Z.max (len (result_hits r)) 1))) 4).
    rewrite Efound, Ehits. vm_compute. reflexivity.
  - vm_compute. reflexivity.
Qed.

(** ** The tag boost *)

Lemma inter_size_nonneg (a b : list string) : 0 <= PySeq.inter_size a b.
Proof. unfold PySeq.inter_size. lia. Qed.

Lemma engine_query_all_adjusted {F : Type} `{PyFloat F}
    (self : RetrievalEngine.t F) (text : string) (top_k : Z) :
  0 <= top_k ->
  Permutation (hits (RetrievalEngine.query self text top_k))
              (map (RetrievalEngine.adjust self (_tokenize text))
                   (InMemoryVectorIndex.query (RetrievalEngine.index self) text top_k)).
Proof.
  intros Hk. unfold RetrievalEngine.query. cbn [hits].
  rewrite slice_to_full; [apply sorted_desc_perm | ].
  rewrite sorted_desc_length. unfold len. rewrite length_map.
  pose proof (index_query_length (RetrievalEngine.index self) text top_k) as E.
  unfold len in E. rewrite E.
  destruct (top_k <? 0) eqn:Ek; [apply Z.ltb_lt in Ek | ]; lia.
Qed.

(** ** The tag boost in binary64 *)








(** ** The bounded history *)

(** The last [n] elements of a list: the [n] most recent entries. *)
Definition lastn {A : Type} (n : nat) (l : list A) : list A :=
  skipn (List.length l - n) l.

Lemma lastn_length {A : Type} (n : nat) (l : list A) :
  List.length (lastn n l) = Nat.min n (List.length l).
Proof. unfold lastn. rewrite length_skipn. lia. Qed.

Lemma lastn_all {A : Type} (n : nat) (l : list A) :
  (List.length l <= n)%nat -> lastn n l = l.
Proof.
  intros Hl. unfold lastn. replace (List.length l - n)%nat with 0%nat by lia.
  reflexivity.
Qed.

Lemma lastn_app_exact {A : Type} (n : nat) (l1 l2 : list A) :
  List.length l2 = n -> lastn n (l1 ++ l2) = l2.
Proof.
  intros Hl. unfold lastn. rewrite length_app, skipn_app.
  replace (List.length l1 + List.length l2 - n)%nat with (List.length l1) by lia.
  rewrite skipn_all, Nat.sub_diag. reflexivity.
Qed.

Lemma lastn_lastn_app {A : Type} (n : nat) (l1 l2 : list A) :
  lastn n (lastn n l1 ++ l2) = lastn n (l1 ++ l2).
Proof.
  destruct (Nat.le_gt_cases (List.length l1) n) as [Hle | Hgt].
  - now rewrite (lastn_all n l1 Hle).
  - unfold lastn at 1 3. rewrite !length_app, lastn_length.
    replace (Nat.min n (List.length l1)) with n by lia.
    replace (n + List.length l2 - n)%nat with (List.length l2) by lia.
    replace (List.length l1 + List.length l2 - n)%nat
      with (List.length l2 + (List.length l1 - n))%nat by lia.
    rewrite <- skipn_skipn. f_equal.
    unfold lastn. rewrite skipn_app.
    replace (List.length l1 - n - List.length l1)%nat with 0%nat by lia.
    reflexivity.
Qed.

(** Appending to a full deque evicts the oldest entry. *)
Lemma deque_append_lastn {A : Type} (maxlen : nat) (d : list A) (x : A) :
  (List.length d <= maxlen)%nat ->
  PySeq.deque_append maxlen d x = lastn maxlen (d ++ [x]).
Proof.
  intros Hd. unfold PySeq.deque_append, lastn. rewrite length_app. simpl List.length.
  destruct (Nat.ltb_spec maxlen (List.length d + 1)) as [Hlt | Hge].
  - replace (List.length d + 1 - maxlen)%nat with 1%nat by lia. reflexivity.
  - replace (List.length d + 1 - maxlen)%nat with 0%nat by lia. reflexivity.
Qed.

Lemma deque_fold_lastn {A : Type} (maxlen : nat) (new d : list A) :
  (List.length d <= maxlen)%nat ->
  fold_left (PySeq.deque_append maxlen) new d = lastn maxlen (d ++ new).
Proof.
  revert d. induction new as [ | x new IH]; intros d Hd; simpl.
  - rewrite app_nil_r. symmetry. now apply lastn_all.
  - rewrite IH.
    + rewrite (deque_append_lastn maxlen d x Hd), lastn_lastn_app, <- app_assoc.
      reflexivity.
    + rewrite (deque_append_lastn maxlen d x Hd), lastn_length. lia.
Qed.

Section AutomationFacts.
Context {F : Type} `{PyFloat F}.

(** What the spec compares [run_all] with: the engine of an adapter built
    by its factory and handed to a [RetrievalBenchmarkRunner] that runs
    the same cases. *)
Definition manual_suite (factory : Factory F) (cases : list RetrievalBenchmarkCase)
    : RetrievalBenchmarkSuite F :=
  fst (RetrievalBenchmarkRunner.run
         (RetrievalBenchmarkRunner.init (Some (factory tt))) cases).

(** The names that [run_all] goes through. *)
Definition resolved_names (self : AutomatedBenchmarkRunner.t F)
    (adapter_names : option (list string)) : list string :=
  match adapter_names with
  | Some (n :: rest) => n :: rest
  | Some [] | None => map fst (AutomatedBenchmarkRunner.adapters self)
  end.

(** The manual benchmark of the registered names among [names]. *)
Definition manual_runs (self : AutomatedBenchmarkRunner.t F)
    (cases : list RetrievalBenchmarkCase) (names : list string)
    : list (string * RetrievalBenchmarkSuite F) :=
  flat_map (fun name =>
              match AutomatedBenchmarkRunner.lookup
                      (AutomatedBenchmarkRunner.adapters self) name with
              | Some factory => [(name, manual_suite factory cases)]
              | None => []
              end) names.

Lemma run_adapter_step (self : AutomatedBenchmarkRunner.t F) (clk : nat -> F)
    (cases : list RetrievalBenchmarkCase) (track : bool) (name : string)
    (st : AutomatedBenchmarkRunner.loop_state) :
  exists new,
    let st' := AutomatedBenchmarkRunner.run_adapter self clk cases track st name in
    AutomatedBenchmarkRunner.ls_runs st' = AutomatedBenchmarkRunner.ls_runs st ++ new
    /\ map (fun res => (adapter res, suite res)) new = manual_runs self cases [name]
    /\ AutomatedBenchmarkRunner.ls_history st'
       = if track
         then fold_left (PySeq.deque_append
                           (Z.to_nat (AutomatedBenchmarkRunner.history_limit self)))
                        new (AutomatedBenchmarkRunner.ls_history st)
         else AutomatedBenchmarkRunner.ls_history st.
Proof.
  unfold AutomatedBenchmarkRunner.run_adapter, manual_runs. cbn [flat_map].
  destruct (AutomatedBenchmarkRunner.lookup
              (AutomatedBenchmarkRunner.adapters self) name) as [factory | ].
  - eexists [_]. cbv zeta.
    cbn [AutomatedBenchmarkRunner.ls_runs AutomatedBenchmarkRunner.ls_history
         map app adapter suite fold_left].
    repeat split.
  - exists []. cbv zeta. cbn [map app fold_left]. rewrite app_nil_r.
    repeat split. now destruct track.
Qed.

Lemma run_adapter_fold (self : AutomatedBenchmarkRunner.t F) (clk : nat -> F)
    (cases : list RetrievalBenchmarkCase) (track : bool) (names : list string)
    (st : AutomatedBenchmarkRunner.loop_state) :
  exists new,
    let st' := fold_left (AutomatedBenchmarkRunner.run_adapter self clk cases track)
                         names st in
    AutomatedBenchmarkRunner.ls_runs st' = AutomatedBenchmarkRunner.ls_runs st ++ new
    /\ map (fun res => (adapter res, suite res)) new = manual_runs self cases names
    /\ AutomatedBenchmarkRunner.ls_history st'
       = if track
         then fold_left (PySeq.deque_append
                           (Z.to_nat (AutomatedBenchmarkRunner.history_limit self)))
                        new (AutomatedBenchmarkRunner.ls_history st)
         else AutomatedBenchmarkRunner.ls_history st.
Proof.
  revert st. induction names as [ | name names IH]; intros st.
  - exists []. cbn. rewrite app_nil_r. repeat split. now destruct track.
  - cbn [fold_left].
    destruct (run_adapter_step self clk cases track name st) as [new1 [Hr1 [Hm1 Hh1]]].
    destruct (IH (AutomatedBenchmarkRunner.run_adapter self clk cases track st name))
      as [new2 [Hr2 [Hm2 Hh2]]].
    cbv zeta in Hr1, Hh1, Hr2, Hh2.
    exists (new1 ++ new2). cbv zeta. split; [ | split].
    + rewrite Hr2, Hr1, <- app_assoc. reflexivity.
    + rewrite map_app, Hm1, Hm2. unfold manual_runs. cbn [flat_map].
      now rewrite app_nil_r.
    + rewrite Hh2, Hh1. destruct track; [ | reflexivity].
      now rewrite fold_left_app.
Qed.

End AutomationFacts.

Section RunAllFacts.
Context {F : Type} `{PyFloat F}.

(** [run_all] in closed form. *)
Lemma run_all_spec (self : AutomatedBenchmarkRunner.t F) (clk : nat -> F)
    (cases : list RetrievalBenchmarkCase) (adapter_names : option (list string))
    (track : bool) :
  let out := AutomatedBenchmarkRunner.run_all self clk cases adapter_names track in
  map (fun res => (adapter res, suite res)) (runs (fst out))
    = manual_runs self cases (resolved_names self adapter_names)
  /\ AutomatedBenchmarkRunner._history (snd out)
     = (if track
        then fold_left (PySeq.deque_append
                          (Z.to_nat (AutomatedBenchmarkRunner.history_limit self)))
                       (runs (fst out)) (AutomatedBenchmarkRunner._history self)
        else AutomatedBenchmarkRunner._history self)
  /\ history (fst out)
     = (if track then Some (AutomatedBenchmarkRunner._history (snd out)) else None)
  /\ AutomatedBenchmarkRunner.adapters (snd out) = AutomatedBenchmarkRunner.adapters self
  /\ AutomatedBenchmarkRunner.history_limit (snd out)
     = AutomatedBenchmarkRunner.history_limit self.
Proof.
  unfold AutomatedBenchmarkRunner.run_all. fold (resolved_names self adapter_names).
  destruct (run_adapter_fold self clk cases track (resolved_names self adapter_names)
              {| AutomatedBenchmarkRunner.ls_runs := [];
                 AutomatedBenchmarkRunner.ls_history := AutomatedBenchmarkRunner._history self;
                 AutomatedBenchmarkRunner.ls_ticks := 0 |})
    as [new [Hruns [Hmap Hhist]]].
  cbv zeta in Hruns, Hhist |- *.
  cbn [AutomatedBenchmarkRunner.ls_runs AutomatedBenchmarkRunner.ls_history app]
    in Hruns, Hhist.
  cbn [fst snd runs history AutomatedBenchmarkRunner._history
       AutomatedBenchmarkRunner.adapters AutomatedBenchmarkRunner.history_limit].
  rewrite Hruns, Hhist, Hmap. repeat split.
Qed.

Lemma lookup_registered (adapters : list (string * Factory F)) (name : string) :
  In name (map fst adapters) ->
  exists factory, AutomatedBenchmarkRunner.lookup adapters name = Some factory.
Proof.
  induction adapters as [ | [k f] adapters IH]; simpl; [contradiction | ].
  destruct (String.eqb k name) eqn:E; [now exists f | ].
  intros [Hk | Hin]; [ | now apply IH].
  subst. rewrite String.eqb_refl in E. discriminate E.
Qed.

Lemma manual_runs_names (self : AutomatedBenchmarkRunner.t F)
    (cases : list RetrievalBenchmarkCase) (names : list string) :
  incl names (map fst (AutomatedBenchmarkRunner.adapters self)) ->
  map fst (manual_runs self cases names) = names.
Proof.
  unfold manual_runs.
  induction names as [ | name names IH]; intros Hincl; cbn [flat_map]; [reflexivity | ].
  destruct (lookup_registered (AutomatedBenchmarkRunner.adapters self) name) as [f E].
  { apply Hincl. now left. }
  rewrite E. cbn. f_equal. apply IH.
  intros x Hx. apply Hincl. now right.
Qed.

Lemma manual_runs_sound (self : AutomatedBenchmarkRunner.t F)
    (cases : list RetrievalBenchmarkCase) (names : list string) :
  Forall (fun ns => exists factory,
            AutomatedBenchmarkRunner.lookup (AutomatedBenchmarkRunner.adapters self) (fst ns)
              = Some factory
            /\ snd ns = manual_suite factory cases)
         (manual_runs self cases names).
Proof.
  unfold manual_runs.
  induction names as [ | name names IH]; cbn [flat_map]; [constructor | ].
  destruct (AutomatedBenchmarkRunner.lookup (AutomatedBenchmarkRunner.adapters self) name)
    as [factory | ] eqn:E; [ | exact IH].
  cbn [app]. constructor; [ | exact IH]. now exists factory.
Qed.

(** A runner that the program can hold: one built by the constructor and
    then used by any number of calls of [run_all], the only method. *)
Inductive reachable : AutomatedBenchmarkRunner.t F -> Prop :=
| reach_init (adapters : option (list (string * Factory F))) (history_limit : Z)
    (r : AutomatedBenchmarkRunner.t F) :
    AutomatedBenchmarkRunner.init adapters history_limit = Some r -> reachable r
| reach_run_all (r : AutomatedBenchmarkRunner.t F) (clk : nat -> F)
    (cases : list RetrievalBenchmarkCase) (adapter_names : option (list string))
    (track : bool) :
    reachable r ->
    reachable (snd (AutomatedBenchmarkRunner.run_all r clk cases adapter_names track)).

Lemma reachable_bounded (r : AutomatedBenchmarkRunner.t F) :
  reachable r ->
  0 <= AutomatedBenchmarkRunner.history_limit r
  /\ len (AutomatedBenchmarkRunner._history r) <= AutomatedBenchmarkRunner.history_limit r.
Proof.
  induction 1 as [adapters limit r Hinit | r clk cases names track _ [IH0 IH]].
  - unfold AutomatedBenchmarkRunner.init in Hinit.
    destruct (limit <? 0) eqn:E; [discriminate Hinit | ].
    apply Z.ltb_ge in E. injection Hinit as <-. cbn. unfold len. cbn. lia.
  - destruct (run_all_spec r clk cases names track) as [_ [Hh [_ [_ Hl]]]].
    cbv zeta in Hh, Hl. rewrite Hl, Hh. split; [exact IH0 | ].
    destruct track; [ | exact IH].
    unfold len in *. rewrite deque_fold_lastn by lia. rewrite lastn_length. lia.
Qed.

End RunAllFacts.

(** C8: the history of a runner never holds more than [history_limit]
    entries. A call of [run_all] without [track_history] leaves it
    unchanged; a call with [track_history] appends the results of the call
    and keeps the [history_limit] most recent entries (the oldest go
    first), and reports that history. In particular, with capacity 2,
    three calls in a row that each append one result leave exactly the
    results of the last two calls. *)
Theorem history_bounded_fifo {F : Type} `{PyFloat F} (r : AutomatedBenchmarkRunner.t F) :
  reachable r ->
  len (AutomatedBenchmarkRunner._history r) <= AutomatedBenchmarkRunner.history_limit r
  /\ (forall clk cases names,
        AutomatedBenchmarkRunner._history
          (snd (AutomatedBenchmarkRunner.run_all r clk cases names false))
        = AutomatedBenchmarkRunner._history r)
  /\ (forall clk cases names,
        let out := AutomatedBenchmarkRunner.run_all r clk cases names true in
        AutomatedBenchmarkRunner._history (snd out)
        = lastn (Z.to_nat (AutomatedBenchmarkRunner.history_limit r))
                (AutomatedBenchmarkRunner._history r ++ runs (fst out))
        /\ history (fst out) = Some (AutomatedBenchmarkRunner._history (snd out)))
  /\ (forall clk1 cases1 names1 clk2 cases2 names2 clk3 cases3 names3,
        let out1 := AutomatedBenchmarkRunner.run_all r clk1 cases1 names1 true in
        let out2 := AutomatedBenchmarkRunner.run_all (snd out1) clk2 cases2 names2 true in
        let out3 := AutomatedBenchmarkRunner.run_all (snd out2) clk3 cases3 names3 true in
        AutomatedBenchmarkRunner.history_limit r = 2 ->
        len (runs (fst out1)) = 1 -> len (runs (fst out2)) = 1 ->
        len (runs (fst out3)) = 1 ->
        AutomatedBenchmarkRunner._history (snd out3) = runs (fst out2) ++ runs (fst out3)
        /\ len (AutomatedBenchmarkRunner._history (snd out3)) = 2).
Proof.
  intros Hr.
  assert (forall r' : AutomatedBenchmarkRunner.t F, reachable r' ->
          forall clk cases names,
            AutomatedBenchmarkRunner._history
              (snd (AutomatedBenchmarkRunner.run_all r' clk cases names true))
            = lastn (Z.to_nat (AutomatedBenchmarkRunner.history_limit r'))
                    (AutomatedBenchmarkRunner._history r'
                     ++ runs (fst (AutomatedBenchmarkRunner.run_all r' clk cases names true))))
    as Hfifo.
  { intros r' Hr' clk cases names.
    destruct (run_all_spec r' clk cases names true) as [_ [Hh _]].
    cbv zeta in Hh. rewrite Hh. apply deque_fold_lastn.
    destruct (reachable_bounded r' Hr') as [H0 Hb]. unfold len in Hb. lia. }
  split; [apply (reachable_bounded r Hr) | ]. split; [ | split].
  - intros clk cases names.
    now destruct (run_all_spec r clk cases names false) as [_ [Hh _]].
  - intros clk cases names out. split; [apply (Hfifo r Hr) | ].
    now destruct (run_all_spec r clk cases names true) as [_ [_ [Hs _]]].
  - intros clk1 cases1 names1 clk2 cases2 names2 clk3 cases3 names3 out1 out2 out3
           Hlimit H1 H2 H3.
    assert (reachable (snd out1)) as Hr1 by now apply reach_run_all.
    assert (reachable (snd out2)) as Hr2 by now apply reach_run_all.
    assert (AutomatedBenchmarkRunner.history_limit (snd out1) = 2) as Hl1.
    { destruct (run_all_spec r clk1 cases1 names1 true) as [_ [_ [_ [_ Hl]]]].
      cbv zeta in Hl. fold out1 in Hl. now rewrite Hl. }
    assert (AutomatedBenchmarkRunner.history_limit (snd out2) = 2) as Hl2.
    { destruct (run_all_spec (snd out1) clk2 cases2 names2 true) as [_ [_ [_ [_ Hl]]]].
      cbv zeta in Hl. fold out2 in Hl. now rewrite Hl. }
    assert (AutomatedBenchmarkRunner._history (snd out3) = runs (fst out2) ++ runs (fst out3))
      as E.
    { unfold out3. rewrite (Hfifo _ Hr2). fold out3. rewrite Hl2.
      unfold out2 at 1. rewrite (Hfifo _ Hr1). fold out2. rewrite Hl1.
      rewrite lastn_lastn_app, <- app_assoc.
      apply lastn_app_exact. unfold len in H2, H3. rewrite length_app. lia. }
    split; [exact E | ]. rewrite E. unfold len in *. rewrite length_app. lia.
Qed.

(** A runner with the default adapters and capacity 2, as the constructor
    builds it, and a clock that advances one second per reading. *)
Definition capacity_two_runner : AutomatedBenchmarkRunner.t float :=
  {| AutomatedBenchmarkRunner.adapters := default_adapter_factories;
     AutomatedBenchmarkRunner.history_limit := 2;
     AutomatedBenchmarkRunner._history := [] |}.

Definition steady_clock (n : nat) : float := of_int (Z.of_nat n).

Lemma history_bounded_fifo_witness :
  reachable capacity_two_runner
  /\ (let out1 := AutomatedBenchmarkRunner.run_all capacity_two_runner steady_clock
                    [research_diagram] (Some ["baseline_bow"]) true in
      let out2 := AutomatedBenchmarkRunner.run_all (snd out1) steady_clock
                    [research_diagram] (Some ["tag_bias"]) true in
      let out3 := AutomatedBenchmarkRunner.run_all (snd out2) steady_clock
                    [research_diagram] (Some ["source_bias"]) true in
      AutomatedBenchmarkRunner._history (snd out3) = runs (fst out2) ++ runs (fst out3)
      /\ len (AutomatedBenchmarkRunner._history (snd out3)) = 2
      /\ map adapter (AutomatedBenchmarkRunner._history (snd out3))
         = ["tag_bias"; "source_bias"]).
Proof.
  assert (reachable capacity_two_runner) as Hr.
  { apply (reach_init None 2). reflexivity. }
  split; [exact Hr | ].
  intros out1 out2 out3.
  destruct (history_bounded_fifo capacity_two_runner Hr) as [_ [_ [_ Hscenario]]].
  destruct (Hscenario steady_clock [research_diagram] (Some ["baseline_bow"])
                      steady_clock [research_diagram] (Some ["tag_bias"])
                      steady_clock [research_diagram] (Some ["source_bias"]))
    as [E Hlen]; try reflexivity.
  split; [exact E | ]. split; [exact Hlen | ].
  fold out1 out2 out3 in E. rewrite E. reflexivity.
Defined.

Lemma manual_runs_complete {F : Type} `{PyFloat F} (self : AutomatedBenchmarkRunner.t F)
    (cases : list RetrievalBenchmarkCase) (names : list string) (name : string)
    (factory : Factory F) :
  In name names ->
  AutomatedBenchmarkRunner.lookup (AutomatedBenchmarkRunner.adapters self) name
    = Some factory ->
  In (name, manual_suite factory cases) (manual_runs self cases names).
Proof.
  intros Hin Hlookup. unfold manual_runs. apply in_flat_map.
  exists name. split; [exact Hin | ]. rewrite Hlookup. now left.
Qed.

(** C9: for every list of cases, the runs of [run_all] are, in order, the
    registered names among the resolved ones, each with the suite that a
    [RetrievalBenchmarkRunner] yields on the same cases when handed the
    engine built by the factory of that adapter: every run carries that
    suite, and every resolved name that is registered has such a run. *)
Theorem run_all_matches_manual {F : Type} `{PyFloat F}
    (self : AutomatedBenchmarkRunner.t F) (clk : nat -> F)
    (cases : list RetrievalBenchmarkCase) (adapter_names : option (list string))
    (track : bool) :
  let summary := fst (AutomatedBenchmarkRunner.run_all self clk cases adapter_names track) in
  map (fun res => (adapter res, suite res)) (runs summary)
    = manual_runs self cases (resolved_names self adapter_names)
  /\ Forall (fun res => exists factory,
               AutomatedBenchmarkRunner.lookup
                 (AutomatedBenchmarkRunner.adapters self) (adapter res) = Some factory
               /\ suite res
                  = fst (RetrievalBenchmarkRunner.run
                           (RetrievalBenchmarkRunner.init (Some (factory tt))) cases))
            (runs summary)
  /\ Forall (fun name => forall factory,
               AutomatedBenchmarkRunner.lookup
                 (AutomatedBenchmarkRunner.adapters self) name = Some factory ->
               exists res, In res (runs summary) /\ adapter res = name
                           /\ suite res
                              = fst (RetrievalBenchmarkRunner.run
                                       (RetrievalBenchmarkRunner.init (Some (factory tt)))
                                       cases))
            (resolved_names self adapter_names).
Proof.
  intros summary.
  destruct (run_all_spec self clk cases adapter_names track) as [Hmap _].
  cbv zeta in Hmap. fold summary in Hmap.
  split; [exact Hmap | ]. split.
  - pose proof (manual_runs_sound self cases (resolved_names self adapter_names)) as Hs.
    rewrite <- Hmap in Hs. rewrite Forall_map in Hs. exact Hs.
  - apply Forall_forall. intros name Hin factory Hlookup.
    pose proof (manual_runs_complete self cases _ name factory Hin Hlookup) as Hrun.
    rewrite <- Hmap in Hrun. apply in_map_iff in Hrun.
    destruct Hrun as [res [E Hres]]. injection E as Ea Es.
    exists res. now repeat split.
Qed.

Section EmptyNames.
Context {F : Type} `{PyFloat F}.

Lemma manual_runs_each (self : AutomatedBenchmarkRunner.t F)
    (cases : list RetrievalBenchmarkCase) (names : list string) :
  incl names (map fst (AutomatedBenchmarkRunner.adapters self)) ->
  Forall2 (fun name ns =>
             fst ns = name
             /\ exists factory,
                  AutomatedBenchmarkRunner.lookup
                    (AutomatedBenchmarkRunner.adapters self) name = Some factory
                  /\ snd ns = manual_suite factory cases)
          names (manual_runs self cases names).
Proof.
  unfold manual_runs.
  induction names as [ | name names IH]; intros Hincl; cbn [flat_map]; [constructor | ].
  destruct (lookup_registered (AutomatedBenchmarkRunner.adapters self) name) as [f E].
  { apply Hincl. now left. }
  rewrite E. cbn [app]. constructor.
  - split; [reflexivity | ]. now exists f.
  - apply IH. intros x Hx. apply Hincl. now right.
Qed.

(** In a mapping, whose keys are distinct, a key leads to its own value. *)
Lemma lookup_own (adapters : list (string * Factory F)) (k : string) (f : Factory F) :
  NoDup (map fst adapters) -> In (k, f) adapters ->
  AutomatedBenchmarkRunner.lookup adapters k = Some f.
Proof.
  induction adapters as [ | [k' f'] adapters IH]; cbn [map fst In AutomatedBenchmarkRunner.lookup];
    intros Hnd Hin; [contradiction | ].
  inversion Hnd as [ | ? ? Hk' Hnd']; subst.
  destruct Hin as [E | Hin].
  - injection E as -> ->. now rewrite String.eqb_refl.
  - destruct (String.eqb k' k) eqn:E; [ | now apply IH].
    apply String.eqb_eq in E. subst k'. exfalso. apply Hk'.
    apply in_map_iff. now exists (k, f).
Qed.

Lemma Forall2_map_l {A B C : Type} (P : B -> C -> Prop) (g : A -> B)
    (l : list A) (l' : list C) :
  Forall2 P (map g l) l' <-> Forall2 (fun x y => P (g x) y) l l'.
Proof.
  split.
  - revert l'. induction l as [ | x l IH]; intros l' Hall; inversion Hall; subst;
      constructor; auto.
  - induction 1; cbn [map]; constructor; auto.
Qed.

Lemma Forall2_map_r {A B C : Type} (P : A -> C -> Prop) (g : B -> C)
    (l : list A) (l' : list B) :
  Forall2 P l (map g l') <-> Forall2 (fun x y => P x (g y)) l l'.
Proof.
  split.
  - revert l. induction l' as [ | y l' IH]; intros l Hall; inversion Hall; subst;
      constructor; auto.
  - induction 1; cbn [map]; constructor; auto.
Qed.

Lemma Forall2_impl_in {A B : Type} (P Q : A -> B -> Prop) (l : list A) (l' : list B) :
  (forall x y, In x l -> P x y -> Q x y) -> Forall2 P l l' -> Forall2 Q l l'.
Proof.
  intros HPQ Hall. induction Hall as [ | x y l l' Hxy _ IH]; constructor.
  - apply HPQ; [now left | exact Hxy].
  - apply IH. intros a b Ha. apply HPQ. now right.
Qed.

End EmptyNames.

(** C10: [run_all] with [adapter_names=[]] is [run_all] without
    [adapter_names]: the empty list is falsy, so every registered adapter
    is resolved and run, in the order of the mapping. There is one run
    per registered name; each run carries the name and the suite that
    [RetrievalBenchmarkRunner.run] yields on the cases with the engine
    built by the factory registered under that name, which, the keys of
    a mapping being distinct, is the adapter's own factory. So the runs
    are not empty unless no adapter is registered. *)
Theorem run_all_empty_names_means_all {F : Type} `{PyFloat F}
    (self : AutomatedBenchmarkRunner.t F) (clk : nat -> F)
    (cases : list RetrievalBenchmarkCase) (track : bool) :
  let registered := AutomatedBenchmarkRunner.adapters self in
  let all_runs :=
    runs (fst (AutomatedBenchmarkRunner.run_all self clk cases (Some []) track)) in
  AutomatedBenchmarkRunner.run_all self clk cases (Some []) track
    = AutomatedBenchmarkRunner.run_all self clk cases None track
  /\ map adapter all_runs = map fst registered
  /\ Forall2 (fun kv res =>
                adapter res = fst kv
                /\ exists factory,
                     AutomatedBenchmarkRunner.lookup registered (fst kv) = Some factory
                     /\ suite res
                        = fst (RetrievalBenchmarkRunner.run
                                 (RetrievalBenchmarkRunner.init (Some (factory tt))) cases))
             registered all_runs
  /\ (NoDup (map fst registered) ->
      Forall2 (fun kv res =>
                 adapter res = fst kv
                 /\ suite res
                    = fst (RetrievalBenchmarkRunner.run
                             (RetrievalBenchmarkRunner.init (Some (snd kv tt))) cases))
              registered all_runs)
  /\ len all_runs = len registered
  /\ (registered <> [] -> all_runs <> []).
Proof.
  intros registered all_runs.
  destruct (run_all_spec self clk cases (Some []) track) as [Hmap _].
  cbv zeta in Hmap. fold all_runs in Hmap.
  change (resolved_names self (Some [])) with (map fst registered) in Hmap.
  pose proof (manual_runs_each self cases (map fst registered) (incl_refl _)) as Heach.
  rewrite <- Hmap in Heach. fold registered in Heach.
  apply Forall2_map_l, Forall2_map_r in Heach. cbn [fst snd] in Heach.
  assert (Forall2 (fun kv res =>
                     adapter res = fst kv
                     /\ exists factory,
                          AutomatedBenchmarkRunner.lookup registered (fst kv) = Some factory
                          /\ suite res
                             = fst (RetrievalBenchmarkRunner.run
                                      (RetrievalBenchmarkRunner.init (Some (factory tt)))
                                      cases))
                  registered all_runs) as Hrun.
  { apply Forall2_impl with (2 := Heach). intros kv res [Ha [factory [Hl Hs]]].
    split; [exact Ha | ]. now exists factory. }
  assert (len all_runs = len registered) as Hlen.
  { unfold len. now rewrite (Forall2_length Hrun). }
  split; [reflexivity | ]. split; [ | split; [exact Hrun | split; [ | split]]].
  - clear - Hrun. induction Hrun as [ | kv res l l' [Ha _] _ IH]; cbn [map]; [reflexivity | ].
    now rewrite Ha, IH.
  - intros Hnd. apply Forall2_impl_in with (2 := Hrun).
    intros [k f] res Hin [Ha [factory [Hl Hs]]]. cbn [fst snd] in *.
    rewrite (lookup_own registered k f Hnd Hin) in Hl. injection Hl as <-.
    now split.
  - exact Hlen.
  - intros Hne Hnil. rewrite Hnil in Hlen. unfold len in Hlen.
    destruct registered; [now apply Hne | cbn in Hlen; lia].
Qed.

(** * Further properties of the retrieval core *)

(** ** Reset, ingestion and counts *)

Section EngineState.
Context {F : Type} `{PyFloat F}.

(** The document that [ingest_bundle] stores for a slice: the summary and
    the highlights, joined by spaces, are what is embedded. *)
Definition document_of_slice (slice_ : KnowledgeSlice) : IndexedDocument F :=
  {| doc_id := slice_id slice_;
     doc_vector :=
       embed_text (PyStr.join " " (slice_summary slice_ :: slice_highlights slice_));
     doc_summary := slice_summary slice_;
     doc_tags := slice_tags slice_;
     doc_modality := slice_modality slice_;
     doc_sources := slice_source_refs slice_ |}.

Lemma ingest_fold_docs (sl : list KnowledgeSlice) (i : InMemoryVectorIndex.t F) :
  InMemoryVectorIndex._docs (fold_left RetrievalEngine.ingest_slice sl i)
  = InMemoryVectorIndex._docs i ++ map document_of_slice sl.
Proof.
  revert i. induction sl as [ | s sl IH]; intros i; cbn [fold_left map].
  - now rewrite app_nil_r.
  - rewrite IH. unfold RetrievalEngine.ingest_slice, InMemoryVectorIndex.add.
    cbn [InMemoryVectorIndex._docs]. rewrite <- app_assoc. reflexivity.
Qed.

Lemma index_eta (i : InMemoryVectorIndex.t F) :
  {| InMemoryVectorIndex._docs := InMemoryVectorIndex._docs i |} = i.
Proof. now destruct i. Qed.

Lemma index_query_empty (text : string) (top_k : Z) :
  InMemoryVectorIndex.query (InMemoryVectorIndex.reset
                               (InMemoryVectorIndex.init (F := F))) text top_k = []
  /\ forall i : InMemoryVectorIndex.t F,
       InMemoryVectorIndex.query (InMemoryVectorIndex.reset i) text top_k = [].
Proof.
  assert (forall k, PySeq.slice_to k (@nil (RetrievalHit F)) = []) as E.
  { intros k. unfold PySeq.slice_to. destruct (k <? 0); apply firstn_nil. }
  split; [apply E | intros i; apply E].
Qed.

End EngineState.

(** X1: [reset] empties the index and keeps the boosts; resetting twice is
    resetting once, and a query right after a reset returns no hit,
    whatever the text and [top_k]. *)
Theorem reset_clears_index {F : Type} `{PyFloat F} (e : RetrievalEngine.t F)
    (text : string) (top_k : Z) :
  RetrievalEngine.reset (RetrievalEngine.reset e) = RetrievalEngine.reset e
  /\ InMemoryVectorIndex._docs (RetrievalEngine.index (RetrievalEngine.reset e)) = []
  /\ RetrievalEngine.tag_boost (RetrievalEngine.reset e) = RetrievalEngine.tag_boost e
  /\ RetrievalEngine.source_boost (RetrievalEngine.reset e)
     = RetrievalEngine.source_boost e
  /\ InMemoryVectorIndex.query (InMemoryVectorIndex.reset (RetrievalEngine.index e))
       text top_k = []
  /\ hits (RetrievalEngine.query (RetrievalEngine.reset e) text top_k) = [].
Proof.
  repeat split.
  - apply (proj2 (index_query_empty text top_k)).
  - unfold RetrievalEngine.query. cbn [hits].
    unfold RetrievalEngine.reset at 2. cbn [RetrievalEngine.index RetrievalEngine.with_index].
    rewrite (proj2 (index_query_empty text top_k) (RetrievalEngine.index e)).
    cbn [map sorted_desc fold_right].
    unfold PySeq.slice_to. destruct (top_k <? 0); apply firstn_nil.
Qed.

(** X2: [ingest_bundle] returns the number of slices and appends one
    document per slice, in order, after the documents already stored: it
    never replaces or removes a document (ingesting an id again stores it
    twice) and leaves the boosts alone. Ingesting the slices of two
    bundles at once is ingesting one bundle after the other. *)
Theorem ingest_bundle_appends {F : Type} `{PyFloat F} (e : RetrievalEngine.t F)
    (s1 s2 : list KnowledgeSlice) :
  let e1 := snd (RetrievalEngine.ingest_bundle e {| slices := s1 |}) in
  fst (RetrievalEngine.ingest_bundle e {| slices := s1 |}) = len s1
  /\ InMemoryVectorIndex._docs (RetrievalEngine.index e1)
     = InMemoryVectorIndex._docs (RetrievalEngine.index e) ++ map document_of_slice s1
  /\ RetrievalEngine.tag_boost e1 = RetrievalEngine.tag_boost e
  /\ RetrievalEngine.source_boost e1 = RetrievalEngine.source_boost e
  /\ RetrievalEngine.ingest_bundle e {| slices := s1 ++ s2 |}
     = (len s1 + len s2, snd (RetrievalEngine.ingest_bundle e1 {| slices := s2 |})).
Proof.
  intros e1. unfold e1, RetrievalEngine.ingest_bundle. cbn [fst snd slices].
  repeat split.
  - apply ingest_fold_docs.
  - unfold RetrievalEngine.with_index.
    cbn [RetrievalEngine.index RetrievalEngine.tag_boost RetrievalEngine.source_boost].
    rewrite fold_left_app. f_equal.
    unfold len. rewrite length_app. lia.
Qed.

(** X3: the number of hits of [RetrievalEngine.query]: for [top_k >= 0]
    it is [min(top_k, document_count)]; a negative [top_k] is applied
    twice, by the index and by the engine, and
    [max(max(document_count + top_k, 0) + top_k, 0)] hits remain. Every
    hit carries the id of a stored document. *)
Theorem engine_query_count {F : Type} `{PyFloat F} (e : RetrievalEngine.t F)
    (text : string) (top_k : Z) :
  let n := len (InMemoryVectorIndex._docs (RetrievalEngine.index e)) in
  len (hits (RetrievalEngine.query e text top_k))
  = (if top_k <? 0 then Z.max 0 (Z.max 0 (n + top_k) + top_k) else Z.min top_k n)
  /\ Forall (fun h => In (hit_id h)
                         (map doc_id (InMemoryVectorIndex._docs (RetrievalEngine.index e))))
            (hits (RetrievalEngine.query e text top_k)).
Proof.
  intros n. split.
  - rewrite engine_query_length. cbv zeta. rewrite index_query_length. fold n.
    destruct (top_k <? 0); reflexivity.
  - apply Forall_forall. intros h Hh.
    destruct (engine_query_from_index e text top_k h Hh) as [r [Hr ->]].
    destruct (index_query_from_docs _ text top_k r Hr) as [d [Hd ->]].
    cbn. now apply in_map.
Qed.

(** ** Ties keep insertion order *)

Section Stability.
Context {F : Type} `{PyFloat F} {A : Type} (key : A -> F) (P : A -> bool).

Lemma flt_irrefl (x : F) : flt x x = false.
Proof.
  destruct (flt x x) eqn:E; [ | reflexivity].
  pose proof (flt_asym x x E) as E'. congruence.
Qed.

Lemma insert_desc_filter (x : A) (l : list A) :
  (forall y, In y l -> P x = true -> P y = true -> key x = key y) ->
  filter P (insert_desc key x l) = filter P (x :: l).
Proof.
  induction l as [ | y l IH]; intros Hkey; [reflexivity | ].
  cbn [insert_desc]. destruct (flt (key x) (key y)) eqn:E; [ | reflexivity].
  assert (filter P (insert_desc key x l) = filter P (x :: l)) as IH'.
  { apply IH. intros z Hz. apply Hkey. now right. }
  cbn [filter] in IH' |- *. rewrite IH'.
  destruct (P x) eqn:Ex; [ | reflexivity].
  destruct (P y) eqn:Ey; [ | reflexivity].
  exfalso. rewrite (Hkey y (or_introl eq_refl) eq_refl Ey), flt_irrefl in E.
  discriminate E.
Qed.

(** Among the elements selected by [P], which share one key, a
    descending sort changes nothing. *)
Lemma sorted_desc_filter (l : list A) :
  (forall x y, In x l -> In y l -> P x = true -> P y = true -> key x = key y) ->
  filter P (sorted_desc key l) = filter P l.
Proof.
  induction l as [ | x l IH]; intros Hkey; [reflexivity | ].
  cbn [sorted_desc fold_right]. fold (sorted_desc key l).
  rewrite insert_desc_filter.
  - cbn [filter]. rewrite IH; [reflexivity | ].
    intros a b Ha Hb. apply Hkey; now right.
  - intros y Hy. apply Hkey; [now left | right].
    apply (Permutation_in _ (sorted_desc_perm key l)). exact Hy.
Qed.

End Stability.

(** X4: ties keep insertion order. Among the hits selected by any
    predicate [P] whose selected hits all have the same score, the hits
    that [InMemoryVectorIndex.query] returns come in the order in which
    their documents were added: they form a prefix of the selected
    documents in insertion order, and all of them when [top_k] is at
    least the number of documents. *)
Theorem index_query_stable {F : Type} `{PyFloat F} (self : InMemoryVectorIndex.t F)
    (text : string) (top_k : Z) (P : RetrievalHit F -> bool) :
  let scored := map (InMemoryVectorIndex.score_doc (embed_text text))
                    (InMemoryVectorIndex._docs self) in
  (forall x y, In x scored -> In y scored -> P x = true -> P y = true ->
               hit_score x = hit_score y) ->
  (exists rest,
     filter P scored = filter P (InMemoryVectorIndex.query self text top_k) ++ rest)
  /\ (len (InMemoryVectorIndex._docs self) <= top_k ->
      filter P (InMemoryVectorIndex.query self text top_k) = filter P scored).
Proof.
  intros scored Hkey. unfold InMemoryVectorIndex.query. fold scored.
  pose proof (sorted_desc_filter hit_score P scored Hkey) as Hsorted.
  split.
  - destruct (slice_to_prefix top_k (sorted_desc hit_score scored)) as [rest E].
    exists (filter P rest). rewrite <- filter_app, <- E. now symmetry.
  - intros Hk. rewrite slice_to_full; [exact Hsorted | ].
    rewrite sorted_desc_length. unfold scored, len. rewrite length_map. exact Hk.
Qed.

(** Three documents of which the last two do not match the query
    ["apple"]. *)
Definition three_docs_index : InMemoryVectorIndex.t float :=
  InMemoryVectorIndex.add
    (InMemoryVectorIndex.add
       (InMemoryVectorIndex.add InMemoryVectorIndex.init
          "d1" "green pear" "green pear" [] Text [])
       "d2" "red apple" "red apple" [] Text [])
    "d3" "blue plum" "blue plum" [] Text [].

Definition is_unmatched (h : RetrievalHit float) : bool :=
  negb (String.eqb (hit_id h) "d2").

Lemma index_query_stable_witness :
  (forall x y,
     In x (map (InMemoryVectorIndex.score_doc (embed_text "apple"))
               (InMemoryVectorIndex._docs three_docs_index)) ->
     In y (map (InMemoryVectorIndex.score_doc (embed_text "apple"))
               (InMemoryVectorIndex._docs three_docs_index)) ->
     is_unmatched x = true -> is_unmatched y = true -> hit_score x = hit_score y)
  /\ map hit_id (InMemoryVectorIndex.query three_docs_index "apple" 3) = ["d2"; "d1"; "d3"]
  /\ filter is_unmatched (InMemoryVectorIndex.query three_docs_index "apple" 3)
     = filter is_unmatched
         (map (InMemoryVectorIndex.score_doc (embed_text "apple"))
              (InMemoryVectorIndex._docs three_docs_index)).
Proof.
  assert (forall x y,
     In x (map (InMemoryVectorIndex.score_doc (embed_text "apple"))
               (InMemoryVectorIndex._docs three_docs_index)) ->
     In y (map (InMemoryVectorIndex.score_doc (embed_text "apple"))
               (InMemoryVectorIndex._docs three_docs_index)) ->
     is_unmatched x = true -> is_unmatched y = true -> hit_score x = hit_score y) as Hkey.
  { intros x y Hx Hy. vm_compute in Hx, Hy.
    destruct Hx as [<- | [<- | [<- | []]]]; destruct Hy as [<- | [<- | [<- | []]]];
      vm_compute; intros; congruence. }
  split; [exact Hkey | ]. split; [vm_compute; reflexivity | ].
  apply (proj2 (index_query_stable three_docs_index "apple" 3 is_unmatched Hkey)).
  vm_compute. discriminate.
Defined.

(** ** Boosts reorder, they do not select *)

Section BoostIndependence.
Context {F : Type} `{PyFloat F}.

Lemma adjust_keeps_id (e : RetrievalEngine.t F) (qt : list string) (l : list (RetrievalHit F)) :
  map hit_id (map (RetrievalEngine.adjust e qt) l) = map hit_id l.
Proof. rewrite map_map. reflexivity. Qed.

(** For [top_k >= 0] the ids of the hits of a case are those of the
    index's top-k, whatever the engine. *)
Lemma run_case_ids_any_engine (e1 e2 : RetrievalEngine.t F) (c : RetrievalBenchmarkCase) :
  0 <= case_top_k c ->
  Permutation (map hit_id (result_hits (snd (RetrievalBenchmarkRunner.run_case e1 c))))
              (map hit_id (result_hits (snd (RetrievalBenchmarkRunner.run_case e2 c)))).
Proof.
  intros Hk. unfold RetrievalBenchmarkRunner.run_case. cbn [snd result_hits].
  set (b1 := snd (RetrievalEngine.ingest_bundle (RetrievalEngine.reset e1) (case_bundle c))).
  set (b2 := snd (RetrievalEngine.ingest_bundle (RetrievalEngine.reset e2) (case_bundle c))).
  assert (RetrievalEngine.index b1 = RetrievalEngine.index b2) as Eidx by reflexivity.
  rewrite (Permutation_map hit_id
             (engine_query_all_adjusted b1 (case_query c) (case_top_k c) Hk)).
  rewrite (Permutation_map hit_id
             (engine_query_all_adjusted b2 (case_query c) (case_top_k c) Hk)).
  rewrite !adjust_keeps_id, Eidx. reflexivity.
Qed.

Lemma run_case_any_engine (e1 e2 : RetrievalEngine.t F) (c : RetrievalBenchmarkCase) :
  0 <= case_top_k c ->
  let r1 := snd (RetrievalBenchmarkRunner.run_case e1 c) in
  let r2 := snd (RetrievalBenchmarkRunner.run_case e2 c) in
  result_case_id r1 = result_case_id r2
  /\ Permutation (map hit_id (result_hits r1)) (map hit_id (result_hits r2))
  /\ Permutation (relevant_found r1) (relevant_found r2)
  /\ precision_at_k r1 = precision_at_k r2
  /\ recall_at_k r1 = recall_at_k r2.
Proof.
  intros Hk r1 r2.
  pose proof (run_case_ids_any_engine e1 e2 c Hk) as Hids. fold r1 r2 in Hids.
  assert (Permutation (relevant_found r1) (relevant_found r2)) as Hfound.
  { exact (filter_perm (fun hid => PySeq.mem hid (case_relevant_ids c)) _ _ Hids). }
  assert (len (relevant_found r1) = len (relevant_found r2)) as Elen.
  { unfold len. now rewrite (Permutation_length Hfound). }
  assert (len (result_hits r1) = len (result_hits r2)) as Ehits.
  { unfold len. rewrite <- (length_map hit_id (result_hits r1)),
      <- (length_map hit_id (result_hits r2)), (Permutation_length Hids). reflexivity. }
  split; [reflexivity | ]. split; [exact Hids | ]. split; [exact Hfound | ].
  split.
  - change (precision_at_k r1)
      with (pyround (fdiv (of_int (len (relevant_found r1)))
                          (of_int (Z.max (len (result_hits r1)) 1))) 4).
    rewrite Elen, Ehits. reflexivity.
  - change (recall_at_k r1)
      with (pyround (fdiv (of_int (len (relevant_found r1)))
                          (of_int (Z.max (len (case_relevant_ids c)) 1))) 4).
    rewrite Elen. reflexivity.
Qed.

End BoostIndependence.

Lemma Forall2_map_eq {A B C : Type} (P : A -> B -> Prop) (g : A -> C) (g' : B -> C)
    (la : list A) (lb : list B) :
  Forall2 P la lb -> (forall a b, P a b -> g a = g' b) -> map g la = map g' lb.
Proof.
  intros Hall Hg. induction Hall as [ | a b la lb Hab _ IH]; cbn [map]; [reflexivity | ].
  now rewrite (Hg a b Hab), IH.
Qed.

(** X5: boosts reorder hits but never select them. When no case has a
    negative [top_k], two runners with any engines (any boosts, any index
    content) report, case by case, the same hit ids and the same relevant
    ids up to order, the same [precision_at_k] and the same
    [recall_at_k], hence the same macro precision and macro recall: the
    adapters of [default_adapter_factories] cannot differ in these
    metrics. *)
Theorem boosts_do_not_change_metrics {F : Type} `{PyFloat F}
    (r1 r2 : RetrievalBenchmarkRunner.t F) (cases : list RetrievalBenchmarkCase) :
  Forall (fun c => 0 <= case_top_k c) cases ->
  let s1 := fst (RetrievalBenchmarkRunner.run r1 cases) in
  let s2 := fst (RetrievalBenchmarkRunner.run r2 cases) in
  Forall2 (fun a b =>
             result_case_id a = result_case_id b
             /\ Permutation (map hit_id (result_hits a)) (map hit_id (result_hits b))
             /\ Permutation (relevant_found a) (relevant_found b)
             /\ precision_at_k a = precision_at_k b
             /\ recall_at_k a = recall_at_k b)
          (results s1) (results s2)
  /\ suite_macro_precision s1 = suite_macro_precision s2
  /\ suite_macro_recall s1 = suite_macro_recall s2.
Proof.
  intros Hk s1 s2. unfold s1, s2. rewrite !run_suite.
  set (f1 := fun c => snd (RetrievalBenchmarkRunner.run_case
                             (RetrievalBenchmarkRunner.engine r1) c)).
  set (f2 := fun c => snd (RetrievalBenchmarkRunner.run_case
                             (RetrievalBenchmarkRunner.engine r2) c)).
  assert (Forall2 (fun a b =>
             result_case_id a = result_case_id b
             /\ Permutation (map hit_id (result_hits a)) (map hit_id (result_hits b))
             /\ Permutation (relevant_found a) (relevant_found b)
             /\ precision_at_k a = precision_at_k b
             /\ recall_at_k a = recall_at_k b)
          (map f1 cases) (map f2 cases)) as Hall.
  { induction Hk as [ | c cases Hc _ IH]; cbn [map]; constructor; [ | exact IH].
    apply (run_case_any_engine _ _ c Hc). }
  assert (map precision_at_k (map f1 cases) = map precision_at_k (map f2 cases)) as Ep.
  { apply (Forall2_map_eq _ _ _ _ _ Hall). now intros a b [_ [_ [_ [Hp _]]]]. }
  assert (map recall_at_k (map f1 cases) = map recall_at_k (map f2 cases)) as Er.
  { apply (Forall2_map_eq _ _ _ _ _ Hall). now intros a b [_ [_ [_ [_ Hr]]]]. }
  assert (len (map f1 cases) = len (map f2 cases)) as El.
  { unfold len. now rewrite !length_map. }
  split; [exact Hall | ]. unfold summarize.
  cbn [suite_macro_precision suite_macro_recall]. rewrite Ep, Er, El. split; reflexivity.
Qed.

(** The runner of the adapter [tag_bias], in binary64. *)
Definition tag_bias_runner : RetrievalBenchmarkRunner.t float :=
  RetrievalBenchmarkRunner.init (Some (RetrievalEngine.init None (literal 2 10) (of_int 0))).

Lemma boosts_do_not_change_metrics_witness :
  Forall (fun c => 0 <= case_top_k c) default_benchmark_cases
  /\ suite_macro_precision
       (fst (RetrievalBenchmarkRunner.run default_runner default_benchmark_cases))
     = suite_macro_precision
         (fst (RetrievalBenchmarkRunner.run tag_bias_runner default_benchmark_cases))
  /\ suite_macro_recall
       (fst (RetrievalBenchmarkRunner.run default_runner default_benchmark_cases))
     = suite_macro_recall
         (fst (RetrievalBenchmarkRunner.run tag_bias_runner default_benchmark_cases)).
Proof.
  assert (Forall (fun c => 0 <= case_top_k c) default_benchmark_cases) as Hk.
  { repeat constructor; discriminate. }
  split; [exact Hk | ].
  exact (proj2 (boosts_do_not_change_metrics default_runner tag_bias_runner
                  default_benchmark_cases Hk)).
Defined.

(** ** Names that [run_all] skips, and the adapters of a runner *)

Section RunAllNames.
Context {F : Type} `{PyFloat F}.

(** [name in self.adapters]. *)
Definition registered (self : AutomatedBenchmarkRunner.t F) (name : string) : bool :=
  match AutomatedBenchmarkRunner.lookup (AutomatedBenchmarkRunner.adapters self) name with
  | Some _ => true
  | None => false
  end.

Lemma manual_runs_registered (self : AutomatedBenchmarkRunner.t F)
    (cases : list RetrievalBenchmarkCase) (names : list string) :
  map fst (manual_runs self cases names) = filter (registered self) names.
Proof.
  unfold manual_runs, registered.
  induction names as [ | name names IH]; cbn [flat_map filter]; [reflexivity | ].
  destruct (AutomatedBenchmarkRunner.lookup (AutomatedBenchmarkRunner.adapters self) name);
    cbn [app map fst]; now rewrite IH.
Qed.

Lemma run_all_adapters_run (self : AutomatedBenchmarkRunner.t F) (clk : nat -> F)
    (cases : list RetrievalBenchmarkCase) (adapter_names : option (list string))
    (track : bool) :
  map adapter (runs (fst (AutomatedBenchmarkRunner.run_all self clk cases adapter_names track)))
  = filter (registered self) (resolved_names self adapter_names).
Proof.
  destruct (run_all_spec self clk cases adapter_names track) as [Hmap _].
  cbv zeta in Hmap. rewrite <- manual_runs_registered with (cases := cases), <- Hmap, map_map.
  reflexivity.
Qed.

Lemma run_all_macros (self : AutomatedBenchmarkRunner.t F) (clk : nat -> F)
    (cases : list RetrievalBenchmarkCase) (adapter_names : option (list string))
    (track : bool) :
  let s := fst (AutomatedBenchmarkRunner.run_all self clk cases adapter_names track) in
  macro_precision s
  = pyround (fdiv (fsum (map (fun r => suite_macro_precision (suite r)) (runs s)))
                  (of_int (Z.max (len (runs s)) 1))) 4
  /\ macro_recall s
     = pyround (fdiv (fsum (map (fun r => suite_macro_recall (suite r)) (runs s)))
                     (of_int (Z.max (len (runs s)) 1))) 4.
Proof. split; reflexivity. Qed.

Lemma reachable_adapters (r : AutomatedBenchmarkRunner.t F) :
  reachable r -> AutomatedBenchmarkRunner.adapters r <> [].
Proof.
  induction 1 as [adapters limit r Hinit | r clk cases names track _ IH].
  - unfold AutomatedBenchmarkRunner.init in Hinit.
    destruct (limit <? 0); [discriminate Hinit | ]. injection Hinit as <-.
    cbn [AutomatedBenchmarkRunner.adapters].
    destruct adapters as [[ | a rest] | ]; discriminate.
  - destruct (run_all_spec r clk cases names track) as [_ [_ [_ [Ha _]]]].
    cbv zeta in Ha. now rewrite Ha.
Qed.

End RunAllNames.

(** X6: [run_all] skips the names that are not registered, silently: the
    adapters of the runs are the registered names among the resolved
    ones, in order and with repetitions. The summary carries the history
    only when [track_history] is set. When no resolved name is registered
    there is no run, the history is left as it was, and both macro metrics
    are [round(0 / 1, 4)]. *)
Theorem run_all_skips_unknown {F : Type} `{PyFloat F}
    (self : AutomatedBenchmarkRunner.t F) (clk : nat -> F)
    (cases : list RetrievalBenchmarkCase) (adapter_names : option (list string))
    (track : bool) :
  let out := AutomatedBenchmarkRunner.run_all self clk cases adapter_names track in
  map adapter (runs (fst out))
    = filter (registered self) (resolved_names self adapter_names)
  /\ history (fst out)
     = (if track then Some (AutomatedBenchmarkRunner._history (snd out)) else None)
  /\ (filter (registered self) (resolved_names self adapter_names) = [] ->
      runs (fst out) = []
      /\ AutomatedBenchmarkRunner._history (snd out) = AutomatedBenchmarkRunner._history self
      /\ macro_precision (fst out) = pyround (fdiv (of_int 0) (of_int 1)) 4
      /\ macro_recall (fst out) = pyround (fdiv (of_int 0) (of_int 1)) 4).
Proof.
  intros out.
  pose proof (run_all_adapters_run self clk cases adapter_names track) as Hnames.
  destruct (run_all_spec self clk cases adapter_names track) as [_ [Hh [Hs _]]].
  cbv zeta in Hh, Hs. fold out in Hnames, Hh, Hs.
  split; [exact Hnames | ]. split; [exact Hs | ].
  intros Hnone. rewrite Hnone in Hnames. apply map_eq_nil in Hnames.
  destruct (run_all_macros self clk cases adapter_names track) as [Hp Hr].
  cbv zeta in Hp, Hr. fold out in Hp, Hr.
  rewrite Hp, Hr, Hh, Hnames. repeat split. now destruct track.
Qed.

(** X7: a runner built by the constructor never has an empty adapter
    mapping, also after any number of calls of [run_all] (an empty or
    absent mapping is replaced by the defaults, and [run_all] does not
    touch it), and its [history_limit] is not negative. Called without
    names it therefore runs every adapter once: at least one run. *)
Theorem constructed_runner_has_adapters {F : Type} `{PyFloat F}
    (r : AutomatedBenchmarkRunner.t F) :
  reachable r ->
  AutomatedBenchmarkRunner.adapters r <> []
  /\ 0 <= AutomatedBenchmarkRunner.history_limit r
  /\ forall clk cases track,
       let s := fst (AutomatedBenchmarkRunner.run_all r clk cases None track) in
       map adapter (runs s) = map fst (AutomatedBenchmarkRunner.adapters r)
       /\ runs s <> [].
Proof.
  intros Hr. pose proof (reachable_adapters r Hr) as Ha.
  split; [exact Ha | ]. split; [apply (reachable_bounded r Hr) | ].
  intros clk cases track s.
  assert (map adapter (runs s) = map fst (AutomatedBenchmarkRunner.adapters r)) as E.
  { destruct (run_all_spec r clk cases None track) as [Hmap _].
    cbv zeta in Hmap. fold s in Hmap.
    transitivity (map fst (manual_runs r cases (resolved_names r None))).
    - rewrite <- Hmap, map_map. reflexivity.
    - apply manual_runs_names. apply incl_refl. }
  split; [exact E | ].
  intros Hnil. rewrite Hnil in E. cbn [map] in E. symmetry in E.
  apply map_eq_nil in E. contradiction.
Qed.

Lemma constructed_runner_has_adapters_witness :
  reachable capacity_two_runner
  /\ map adapter
       (runs (fst (AutomatedBenchmarkRunner.run_all capacity_two_runner steady_clock
                     [research_diagram] None false)))
     = ["baseline_bow"; "tag_bias"; "source_bias"].
Proof.
  assert (reachable capacity_two_runner) as Hr.
  { apply (reach_init None 2). reflexivity. }
  split; [exact Hr | ].
  destruct (constructed_runner_has_adapters capacity_two_runner Hr) as [_ [_ Hruns]].
  exact (proj1 (Hruns steady_clock [research_diagram] false)).
Defined.

(** ** The shape of an embedded vector *)

(** [counter[tok]]: the count of a key, 0 when it is absent. *)
Fixpoint counter_get (c : list (string * Z)) (tok : string) : Z :=
  match c with
  | [] => 0
  | (k, v) :: c' => if String.eqb k tok then v else counter_get c' tok
  end.

Lemma counter_get_incr (t : string) (c : list (string * Z)) (tok : string) :
  counter_get (counter_incr t c) tok
  = counter_get c tok + (if String.eqb t tok then 1 else 0).
Proof.
  induction c as [ | [k v] c IH]; cbn [counter_incr counter_get].
  - destruct (String.eqb t tok); lia.
  - destruct (String.eqb k t) eqn:Ekt; cbn [counter_get].
    + apply String.eqb_eq in Ekt. subst k. destruct (String.eqb t tok); lia.
    + destruct (String.eqb k tok) eqn:Ek; [ | exact IH].
      apply String.eqb_eq in Ek. subst k. rewrite String.eqb_sym, Ekt. lia.
Qed.

Lemma counter_get_fold (tokens : list string) (c : list (string * Z)) (tok : string) :
  counter_get (fold_left (fun c t => counter_incr t c) tokens c) tok
  = counter_get c tok + Z.of_nat (count_occ string_dec tokens tok).
Proof.
  revert c. induction tokens as [ | t tokens IH]; intros c; cbn [fold_left count_occ].
  - lia.
  - rewrite IH, counter_get_incr.
    destruct (string_dec t tok) as [E | Hne].
    + subst. rewrite String.eqb_refl. lia.
    + apply String.eqb_neq in Hne. rewrite Hne. lia.
Qed.

Lemma counter_incr_keys (t : string) (c : list (string * Z)) (k : string) :
  In k (map fst (counter_incr t c)) <-> k = t \/ In k (map fst c).
Proof.
  induction c as [ | [k0 v] c IH]; cbn [counter_incr map fst In].
  - intuition.
  - destruct (String.eqb k0 t) eqn:E; cbn [map fst In].
    + apply String.eqb_eq in E. subst. intuition.
    + rewrite IH. intuition.
Qed.

Lemma counter_incr_NoDup (t : string) (c : list (string * Z)) :
  NoDup (map fst c) -> NoDup (map fst (counter_incr t c)).
Proof.
  induction c as [ | [k v] c IH]; cbn [counter_incr map fst]; intros Hnd.
  - repeat constructor. intros [].
  - inversion Hnd as [ | ? ? Hk Hnd']; subst.
    destruct (String.eqb k t) eqn:E; cbn [map fst]; [now constructor | ].
    constructor; [ | now apply IH].
    rewrite counter_incr_keys. intros [-> | Hin]; [ | contradiction].
    rewrite String.eqb_refl in E. discriminate E.
Qed.

Lemma Counter_NoDup (tokens : list string) : NoDup (map fst (Counter tokens)).
Proof.
  unfold Counter.
  assert (forall c, NoDup (map fst c) ->
                    NoDup (map fst (fold_left (fun c t => counter_incr t c) tokens c))) as Hf.
  { induction tokens as [ | t tokens IH]; intros c Hc; [exact Hc | ].
    cbn [fold_left]. apply IH. now apply counter_incr_NoDup. }
  apply Hf. constructor.
Qed.

Lemma counter_get_in (c : list (string * Z)) (k : string) (v : Z) :
  NoDup (map fst c) -> In (k, v) c -> counter_get c k = v.
Proof.
  induction c as [ | [k0 v0] c IH]; cbn [map fst In counter_get]; intros Hnd Hin;
    [contradiction | ].
  inversion Hnd as [ | ? ? Hk Hnd']; subst.
  destruct Hin as [E | Hin].
  - injection E as -> ->. now rewrite String.eqb_refl.
  - destruct (String.eqb k0 k) eqn:E; [ | now apply IH].
    apply String.eqb_eq in E. subst. exfalso. apply Hk.
    apply in_map_iff. now exists (k, v).
Qed.

Lemma counter_get_absent (c : list (string * Z)) (k : string) :
  ~ In k (map fst c) -> counter_get c k = 0.
Proof.
  induction c as [ | [k0 v0] c IH]; cbn [map fst In counter_get]; intros Hk;
    [reflexivity | ].
  destruct (String.eqb k0 k) eqn:E.
  - apply String.eqb_eq in E. subst. exfalso. apply Hk. now left.
  - apply IH. intros Hin. apply Hk. now right.
Qed.

(** The count stored for a token is its number of occurrences. *)
Lemma Counter_count (tokens : list string) (k : string) (v : Z) :
  In (k, v) (Counter tokens) -> v = Z.of_nat (count_occ string_dec tokens k).
Proof.
  intros Hin. rewrite <- (counter_get_in _ k v (Counter_NoDup tokens) Hin).
  unfold Counter. rewrite counter_get_fold. reflexivity.
Qed.

Lemma Counter_keys (tokens : list string) (k : string) :
  In k (map fst (Counter tokens)) <-> In k tokens.
Proof.
  split.
  - intros Hin. apply in_map_iff in Hin. destruct Hin as [[k' v] [E Hin]].
    cbn in E. subst k'.
    pose proof (Counter_count tokens k v Hin) as Ev.
    pose proof (Counter_counts tokens) as Hpos.
    rewrite Forall_forall in Hpos. specialize (Hpos _ Hin). cbn in Hpos.
    apply (count_occ_In string_dec). lia.
  - intros Hin. apply (count_occ_In string_dec) in Hin.
    destruct (in_dec string_dec k (map fst (Counter tokens))) as [Hk | Hk]; [exact Hk | ].
    exfalso. apply counter_get_absent in Hk.
    unfold Counter in Hk. rewrite counter_get_fold in Hk. cbn in Hk. lia.
Qed.

(** X8: the vector of [embed_text(text)] has one entry per distinct token
    of the text, and no other key; the weight of a token is its number of
    occurrences divided by one norm common to the whole vector (the root
    of the sum of the squared counts, or 1.0 when that root is zero). *)
Theorem embed_text_entries {F : Type} `{PyFloat F} (text : string) :
  let tokens := _tokenize text in
  let counts := map (fun tok => Z.of_nat (count_occ string_dec tokens tok))
                    (map fst (embed_text (F := F) text)) in
  let root := fsqrt (of_int (isum (map (fun n => n * n) counts))) in
  let norm := if truthy root then root else of_int 1 in
  NoDup (map fst (embed_text (F := F) text))
  /\ (forall tok, In tok (map fst (embed_text (F := F) text)) <-> In tok tokens)
  /\ Forall (fun kw : string * F =>
               snd kw = fdiv (of_int (Z.of_nat (count_occ string_dec tokens (fst kw)))) norm)
            (embed_text text).
Proof.
  intros tokens counts root norm.
  assert (map fst (embed_text (F := F) text) = map fst (Counter tokens)) as Ekeys.
  { unfold embed_text, _normalize. rewrite map_map. reflexivity. }
  assert (map (fun kv : string * Z => snd kv * snd kv) (Counter tokens)
          = map (fun n => n * n) counts) as Esq.
  { unfold counts. rewrite Ekeys, !map_map. apply map_ext_in.
    intros [k v] Hin. cbn. now rewrite (Counter_count tokens k v Hin). }
  split; [rewrite Ekeys; apply Counter_NoDup | ].
  split; [intros tok; rewrite Ekeys; apply Counter_keys | ].
  unfold embed_text, _normalize. fold tokens. rewrite Esq. fold root. fold norm.
  apply Forall_map. apply Forall_forall. intros [k v] Hin. cbn.
  now rewrite (Counter_count tokens k v Hin).
Qed.

(** ** Macro metrics in binary64 *)

Lemma add_sign (x y : float) :
  sign_or_nan false (Prim2SF x) -> sign_or_nan false (Prim2SF y) ->
  sign_or_nan false (Prim2SF (x + y)).
Proof.
  rewrite add_spec. unfold SF64add, SFadd.
  destruct (Prim2SF x) as [sx | sx | | sx mx ex], (Prim2SF y) as [sy | sy | | sy my ey];
    unfold sign_or_nan; intros Hx Hy; subst; try reflexivity; try exact I.
  unfold cond_Zopp.
  destruct (shl_align mx ex (Z.min ex ey)) as [m1 e1].
  destruct (shl_align my ey (Z.min ex ey)) as [m2 e2]. cbn [fst].
  apply (binary_normalize_sign (Z.pos m1 + Z.pos m2) (Z.min ex ey)). lia.
Qed.

Lemma fsum_sign (xs : list float) :
  Forall (fun x => sign_or_nan false (Prim2SF x)) xs ->
  sign_or_nan false (Prim2SF (fsum xs)).
Proof.
  unfold fsum. intros Hxs.
  assert (sign_or_nan false (Prim2SF (of_int 0))) as H0 by (now apply of_int_sign).
  revert H0. generalize (@of_int float _ 0) as a.
  induction Hxs as [ | x xs Hx _ IH]; intros a Ha; cbn [fold_left]; [exact Ha | ].
  apply IH. now apply add_sign.
Qed.

Lemma run_case_metrics_sign (e : RetrievalEngine.t float) (c : RetrievalBenchmarkCase) :
  let r := snd (RetrievalBenchmarkRunner.run_case e c) in
  sign_or_nan false (Prim2SF (precision_at_k r))
  /\ sign_or_nan false (Prim2SF (recall_at_k r)).
Proof.
  split; apply pyround_sign, div_sign; apply of_int_sign; unfold len; lia.
Qed.

(** X12: in binary64, for every list of cases, [run] reports one result
    per case, in the order of the cases and under their ids, and neither
    macro metric is negative. On an empty list of cases nothing is
    raised: there is no result and both macro metrics are 0.0, the mean
    dividing by [max(len(per_case), 1)]. *)
Theorem run_macro_metrics_bounded (self : RetrievalBenchmarkRunner.t float)
    (cases : list RetrievalBenchmarkCase) :
  let s := fst (RetrievalBenchmarkRunner.run self cases) in
  map result_case_id (results s) = map case_id cases
  /\ PrimFloat.ltb (suite_macro_precision s) 0 = false
  /\ PrimFloat.ltb (suite_macro_recall s) 0 = false
  /\ results (fst (RetrievalBenchmarkRunner.run self [])) = []
  /\ suite_macro_precision (fst (RetrievalBenchmarkRunner.run self [])) = 0%float
  /\ suite_macro_recall (fst (RetrievalBenchmarkRunner.run self [])) = 0%float.
Proof.
  intros s. unfold s. rewrite !run_suite.
  set (f := fun c => snd (RetrievalBenchmarkRunner.run_case
                            (RetrievalBenchmarkRunner.engine self) c)).
  unfold summarize. cbn [suite_macro_precision suite_macro_recall results].
  split; [ | split; [ | split; [ | split; [ | split]]]].
  - rewrite map_map. reflexivity.
  - apply sign_not_negative, pyround_sign, div_sign.
    + apply fsum_sign. rewrite map_map. apply Forall_map, Forall_forall. intros c _.
      apply (run_case_metrics_sign (RetrievalBenchmarkRunner.engine self) c).
    + apply of_int_sign. lia.
  - apply sign_not_negative, pyround_sign, div_sign.
    + apply fsum_sign. rewrite map_map. apply Forall_map, Forall_forall. intros c _.
      apply (run_case_metrics_sign (RetrievalBenchmarkRunner.engine self) c).
    + apply of_int_sign. lia.
  - reflexivity.
  - vm_compute. reflexivity.
  - vm_compute. reflexivity.
Qed.

(** ** Recall grows with [top_k] *)

(** The case [c] with another [top_k]. *)
Definition with_top_k (c : RetrievalBenchmarkCase) (k : Z) : RetrievalBenchmarkCase :=
  {| case_id := case_id c;
     case_bundle := case_bundle c;
     case_query := case_query c;
     case_relevant_ids := case_relevant_ids c;
     case_top_k := k |}.

Section RankedIds.
Context {F : Type} `{PyFloat F}.

(** The ids of the corpus of a case in the order in which the index ranks
    them for the query of the case. *)
Definition ranked_ids (c : RetrievalBenchmarkCase) : list string :=
  map hit_id
      (sorted_desc hit_score
         (map (InMemoryVectorIndex.score_doc (embed_text (F := F) (case_query c)))
              (map document_of_slice (slices (case_bundle c))))).

Lemma run_case_ids_ranked (e : RetrievalEngine.t F) (c : RetrievalBenchmarkCase) :
  0 <= case_top_k c ->
  Permutation (map hit_id (result_hits (snd (RetrievalBenchmarkRunner.run_case e c))))
              (firstn (Z.to_nat (case_top_k c)) (ranked_ids c)).
Proof.
  intros Hk. unfold RetrievalBenchmarkRunner.run_case. cbn [snd result_hits].
  set (b := snd (RetrievalEngine.ingest_bundle (RetrievalEngine.reset e) (case_bundle c))).
  rewrite (Permutation_map hit_id
             (engine_query_all_adjusted b (case_query c) (case_top_k c) Hk)).
  rewrite adjust_keeps_id.
  unfold InMemoryVectorIndex.query, ranked_ids.
  assert (InMemoryVectorIndex._docs (RetrievalEngine.index b)
          = map document_of_slice (slices (case_bundle c))) as Edocs.
  { unfold b, RetrievalEngine.ingest_bundle.
    cbn [snd RetrievalEngine.index RetrievalEngine.with_index].
    now rewrite ingest_fold_docs. }
  rewrite Edocs. unfold PySeq.slice_to.
  destruct (case_top_k c <? 0) eqn:E; [apply Z.ltb_lt in E; lia | ].
  rewrite firstn_map. reflexivity.
Qed.

Lemma filter_firstn_length {A : Type} (f : A -> bool) (l : list A) (n m : nat) :
  (n <= m)%nat ->
  (List.length (filter f (firstn n l)) <= List.length (filter f (firstn m l)))%nat.
Proof.
  intros Hnm.
  assert (firstn m l = firstn n l ++ skipn n (firstn m l)) as E.
  { rewrite <- (firstn_skipn n (firstn m l)) at 1. f_equal.
    rewrite firstn_firstn. f_equal. lia. }
  rewrite E, filter_app, length_app. lia.
Qed.

Lemma relevant_found_grows (e1 e2 : RetrievalEngine.t F) (c : RetrievalBenchmarkCase)
    (k k' : Z) :
  0 <= k -> k <= k' ->
  len (relevant_found (snd (RetrievalBenchmarkRunner.run_case e1 (with_top_k c k))))
  <= len (relevant_found (snd (RetrievalBenchmarkRunner.run_case e2 (with_top_k c k')))).
Proof.
  intros Hk Hkk'.
  pose proof (run_case_ids_ranked e1 (with_top_k c k)) as H1.
  pose proof (run_case_ids_ranked e2 (with_top_k c k')) as H2.
  cbn [case_top_k with_top_k] in H1, H2.
  specialize (H1 Hk). specialize (H2 (Z.le_trans _ _ _ Hk Hkk')).
  apply (filter_perm (fun hid => PySeq.mem hid (case_relevant_ids c))) in H1, H2.
  apply Permutation_length in H1, H2.
  change (ranked_ids (with_top_k c k)) with (ranked_ids c) in H1.
  change (ranked_ids (with_top_k c k')) with (ranked_ids c) in H2.
  unfold len.
  change (relevant_found (snd (RetrievalBenchmarkRunner.run_case e1 (with_top_k c k))))
    with (filter (fun hid => PySeq.mem hid (case_relevant_ids c))
            (map hit_id (result_hits
               (snd (RetrievalBenchmarkRunner.run_case e1 (with_top_k c k)))))).
  change (relevant_found (snd (RetrievalBenchmarkRunner.run_case e2 (with_top_k c k'))))
    with (filter (fun hid => PySeq.mem hid (case_relevant_ids c))
            (map hit_id (result_hits
               (snd (RetrievalBenchmarkRunner.run_case e2 (with_top_k c k')))))).
  rewrite H1, H2. apply inj_le. apply filter_firstn_length. lia.
Qed.

End RankedIds.

Lemma run_case_hits_at_most_top_k {F : Type} `{PyFloat F}
    (e : RetrievalEngine.t F) (c : RetrievalBenchmarkCase) :
  0 <= case_top_k c ->
  len (result_hits (snd (RetrievalBenchmarkRunner.run_case e c))) <= case_top_k c.
Proof.
  intros Hk. unfold RetrievalBenchmarkRunner.run_case. cbn [snd result_hits].
  rewrite engine_query_length, index_query_length. cbv zeta.
  destruct (case_top_k c <? 0) eqn:E; [apply Z.ltb_lt in E; lia | lia].
Qed.

(** X13: recall grows with [top_k]. For one corpus, query and list of
    relevant ids and [0 <= k <= k'], the case run with [top_k = k'] finds
    at least as many relevant ids as with [top_k = k], whatever the
    engines; with [k'] and the number of relevant ids at most
    [size_bound], its [recall_at_k] in binary64 is not smaller. *)
Theorem recall_grows_with_top_k (e1 e2 : RetrievalEngine.t float)
    (c : RetrievalBenchmarkCase) (k k' : Z) :
  0 <= k -> k <= k' ->
  let r := snd (RetrievalBenchmarkRunner.run_case e1 (with_top_k c k)) in
  let r' := snd (RetrievalBenchmarkRunner.run_case e2 (with_top_k c k')) in
  len (relevant_found r) <= len (relevant_found r')
  /\ (k' <= size_bound -> len (case_relevant_ids c) <= size_bound ->
      PrimFloat.leb (recall_at_k r) (recall_at_k r') = true).
Proof.
  intros Hk Hkk' r r'.
  pose proof (relevant_found_grows e1 e2 c k k' Hk Hkk') as Hfound.
  fold r r' in Hfound. split; [exact Hfound | ].
  intros Hk' Hrel.
  change (recall_at_k r)
    with (ratio4 (len (relevant_found r)) (Z.max (len (case_relevant_ids c)) 1)).
  change (recall_at_k r')
    with (ratio4 (len (relevant_found r')) (Z.max (len (case_relevant_ids c)) 1)).
  assert (len (relevant_found r') <= k') as Hle.
  { apply Z.le_trans with (len (result_hits r')).
    - pose proof (relevant_found_le_hits (map hit_id (result_hits r'))
                    (case_relevant_ids c)) as Hl.
      unfold len in *. rewrite length_map in Hl. exact Hl.
    - apply (run_case_hits_at_most_top_k e2 (with_top_k c k')). cbn. lia. }
  assert (0 <= len (case_relevant_ids c)) by (unfold len; lia).
  apply ratio4_mono; unfold size_bound in *; try lia.
  split; [unfold len; lia | exact Hfound].
Qed.

Lemma recall_grows_with_top_k_witness :
  0 <= 1 /\ 1 <= 3
  /\ PrimFloat.leb
       (recall_at_k (snd (RetrievalBenchmarkRunner.run_case
                            (RetrievalEngine.init None (of_int 0) (of_int 0))
                            (with_top_k research_diagram 1))))
       (recall_at_k (snd (RetrievalBenchmarkRunner.run_case
                            (RetrievalEngine.init None (literal 2 10) (of_int 0))
                            (with_top_k research_diagram 3)))) = true.
Proof.
  assert (0 <= 1) as H0 by lia. assert (1 <= 3) as H1 by lia.
  split; [exact H0 | split; [exact H1 | ]].
  apply (proj2 (recall_grows_with_top_k
                  (RetrievalEngine.init None (of_int 0) (of_int 0))
                  (RetrievalEngine.init None (literal 2 10) (of_int 0))
                  research_diagram 1 3 H0 H1)).
  - unfold size_bound. lia.
  - vm_compute. discriminate.
Defined.

(** ** Durations *)

Section Durations.
Context {F : Type} `{PyFloat F}.

(** The duration reported for the run that takes the clock readings
    [2 * i] and [2 * i + 1]. *)
Definition duration_of_run (clk : nat -> F) (i : nat) : F :=
  pyround (fmul (fsub (clk (S (2 * i)%nat)) (clk (2 * i)%nat)) (of_int 1000)) 2.

Lemma run_adapter_fold_durations (self : AutomatedBenchmarkRunner.t F) (clk : nat -> F)
    (cases : list RetrievalBenchmarkCase) (track : bool) (names : list string)
    (st : AutomatedBenchmarkRunner.loop_state) :
  AutomatedBenchmarkRunner.ls_ticks st
    = (2 * List.length (AutomatedBenchmarkRunner.ls_runs st))%nat ->
  map duration_ms (AutomatedBenchmarkRunner.ls_runs st)
    = map (duration_of_run clk) (seq 0 (List.length (AutomatedBenchmarkRunner.ls_runs st))) ->
  let st' := fold_left (AutomatedBenchmarkRunner.run_adapter self clk cases track) names st in
  map duration_ms (AutomatedBenchmarkRunner.ls_runs st')
  = map (duration_of_run clk) (seq 0 (List.length (AutomatedBenchmarkRunner.ls_runs st'))).
Proof.
  revert st. induction names as [ | name names IH]; intros st Hticks Hdur;
    cbn [fold_left]; [exact Hdur | ].
  apply IH.
  - unfold AutomatedBenchmarkRunner.run_adapter.
    destruct (AutomatedBenchmarkRunner.lookup (AutomatedBenchmarkRunner.adapters self) name);
      [ | exact Hticks].
    cbn [AutomatedBenchmarkRunner.ls_ticks AutomatedBenchmarkRunner.ls_runs].
    rewrite length_app, Hticks. cbn [List.length]. lia.
  - unfold AutomatedBenchmarkRunner.run_adapter.
    destruct (AutomatedBenchmarkRunner.lookup (AutomatedBenchmarkRunner.adapters self) name);
      [ | exact Hdur].
    cbn [AutomatedBenchmarkRunner.ls_runs].
    rewrite map_app, length_app, Hdur. cbn [List.length map duration_ms].
    rewrite Nat.add_1_r, seq_S, map_app. cbn [map Nat.add].
    unfold duration_of_run at 3. rewrite Hticks. reflexivity.
Qed.

End Durations.

(** X14: [run_all] reads the clock twice per adapter that it runs and
    not at all for a skipped name: whatever the arithmetic, the run in
    position [i] reports [round((t(2i+1) - t(2i)) * 1000, 2)], where
    [t(n)] is the [n]-th reading of [perf_counter] during the call. *)
Theorem run_all_reads_clock_twice {F : Type} `{PyFloat F}
    (self : AutomatedBenchmarkRunner.t F) (clk : nat -> F)
    (cases : list RetrievalBenchmarkCase) (adapter_names : option (list string))
    (track : bool) :
  let s := fst (AutomatedBenchmarkRunner.run_all self clk cases adapter_names track) in
  map duration_ms (runs s)
  = map (fun i => pyround (fmul (fsub (clk (S (2 * i)%nat)) (clk (2 * i)%nat))
                                (of_int 1000)) 2)
        (seq 0 (List.length (runs s))).
Proof.
  unfold AutomatedBenchmarkRunner.run_all. cbn [fst runs].
  apply (run_adapter_fold_durations self clk cases track); reflexivity.
Qed.

(** ** Case and joining in the tokenizer *)

Lemma isspace_lower_char (c : ascii) :
  PyStr.isspace (PyStr.lower_char c) = PyStr.isspace c.
Proof. destruct c as [[] [] [] [] [] [] [] []]; vm_compute; reflexivity. Qed.

Lemma strip_set_lower_char (c : ascii) :
  PyStr.mem_char strip_set (PyStr.lower_char c) = PyStr.mem_char strip_set c.
Proof. destruct c as [[] [] [] [] [] [] [] []]; vm_compute; reflexivity. Qed.

Lemma lower_char_idempotent (c : ascii) :
  PyStr.lower_char (PyStr.lower_char c) = PyStr.lower_char c.
Proof. destruct c as [[] [] [] [] [] [] [] []]; vm_compute; reflexivity. Qed.

Lemma lstrip_chars_map_lower (p : ascii -> bool) (s : list ascii) :
  (forall c, p (PyStr.lower_char c) = p c) ->
  PyStr.lstrip_chars p (map PyStr.lower_char s)
  = map PyStr.lower_char (PyStr.lstrip_chars p s).
Proof.
  intros Hp. induction s as [ | c s IH]; cbn [map PyStr.lstrip_chars]; [reflexivity | ].
  rewrite Hp. destruct (p c); [exact IH | reflexivity].
Qed.

Lemma strip_chars_map_lower (p : ascii -> bool) (s : list ascii) :
  (forall c, p (PyStr.lower_char c) = p c) ->
  PyStr.strip_chars p (map PyStr.lower_char s)
  = map PyStr.lower_char (PyStr.strip_chars p s).
Proof.
  intros Hp. unfold PyStr.strip_chars.
  rewrite (lstrip_chars_map_lower p s Hp), <- map_rev,
    (lstrip_chars_map_lower p _ Hp), <- map_rev.
  reflexivity.
Qed.

Lemma split_runs_map_lower (s cur : list ascii) :
  PyStr.split_runs (map PyStr.lower_char cur) (map PyStr.lower_char s)
  = map (map PyStr.lower_char) (PyStr.split_runs cur s).
Proof.
  revert cur. induction s as [ | c s IH]; intros cur; cbn [map PyStr.split_runs].
  - destruct cur as [ | c0 cur]; [reflexivity | ].
    cbn [map]. rewrite map_rev. reflexivity.
  - rewrite isspace_lower_char. destruct (PyStr.isspace c).
    + destruct cur as [ | c0 cur]; cbn [map].
      * apply (IH []).
      * rewrite map_rev. cbn [map]. f_equal. apply (IH []).
    + apply (IH (c :: cur)).
Qed.

Lemma lower_of_list (r : list ascii) :
  PyStr.lower (string_of_list_ascii r) = string_of_list_ascii (map PyStr.lower_char r).
Proof. unfold PyStr.lower. now rewrite list_ascii_of_string_of_list_ascii. Qed.

Lemma split_lower (text : string) :
  PyStr.split (PyStr.lower text) = map PyStr.lower (PyStr.split text).
Proof.
  unfold PyStr.split, PyStr.lower at 1.
  rewrite list_ascii_of_string_of_list_ascii.
  pose proof (split_runs_map_lower (list_ascii_of_string text) []) as E.
  change (map PyStr.lower_char []) with (@nil ascii) in E. rewrite E.
  rewrite !map_map. apply map_ext. intros r. symmetry. apply lower_of_list.
Qed.

Lemma strip_lower (t : string) :
  PyStr.strip strip_set (PyStr.lower t) = PyStr.lower (PyStr.strip strip_set t).
Proof.
  unfold PyStr.strip, PyStr.lower at 1.
  rewrite list_ascii_of_string_of_list_ascii.
  rewrite (strip_chars_map_lower _ _ strip_set_lower_char).
  symmetry. apply lower_of_list.
Qed.

Lemma lower_idempotent (t : string) : PyStr.lower (PyStr.lower t) = PyStr.lower t.
Proof.
  unfold PyStr.lower. rewrite list_ascii_of_string_of_list_ascii, map_map.
  f_equal. apply map_ext. apply lower_char_idempotent.
Qed.

Lemma tokenize_unfiltered (text : string) :
  _tokenize text
  = map (fun t => PyStr.lower (PyStr.strip strip_set t)) (PyStr.split text).
Proof. unfold _tokenize. now rewrite tokenize_filter_keeps_all. Qed.

Lemma tokenize_lower (text : string) : _tokenize (PyStr.lower text) = _tokenize text.
Proof.
  rewrite !tokenize_unfiltered, split_lower, map_map.
  apply map_ext. intros t. now rewrite strip_lower, lower_idempotent.
Qed.

(** X15: retrieval ignores case. Lower-casing a text changes neither its
    tokens (which are themselves lower-case) nor its embedding, so the
    index and the engine answer a query and its lower-cased form
    alike. *)
Theorem retrieval_ignores_case {F : Type} `{PyFloat F} (e : RetrievalEngine.t F)
    (text : string) (top_k : Z) :
  _tokenize (PyStr.lower text) = _tokenize text
  /\ Forall (fun t => PyStr.lower t = t) (_tokenize text)
  /\ embed_text (F := F) (PyStr.lower text) = embed_text text
  /\ InMemoryVectorIndex.query (RetrievalEngine.index e) (PyStr.lower text) top_k
     = InMemoryVectorIndex.query (RetrievalEngine.index e) text top_k
  /\ RetrievalEngine.query e (PyStr.lower text) top_k = RetrievalEngine.query e text top_k.
Proof.
  assert (embed_text (F := F) (PyStr.lower text) = embed_text text) as Eemb.
  { unfold embed_text. now rewrite tokenize_lower. }
  assert (InMemoryVectorIndex.query (RetrievalEngine.index e) (PyStr.lower text) top_k
          = InMemoryVectorIndex.query (RetrievalEngine.index e) text top_k) as Eidx.
  { unfold InMemoryVectorIndex.query. now rewrite Eemb. }
  split; [apply tokenize_lower | ]. split.
  - rewrite tokenize_unfiltered. apply Forall_map. apply Forall_forall.
    intros t _. apply lower_idempotent.
  - split; [exact Eemb | ]. split; [exact Eidx | ].
    unfold RetrievalEngine.query. now rewrite tokenize_lower, Eidx.
Qed.

Lemma list_ascii_of_string_app (a b : string) :
  list_ascii_of_string (a ++ b) = list_ascii_of_string a ++ list_ascii_of_string b.
Proof. induction a as [ | c a IH]; cbn; [reflexivity | now rewrite IH]. Qed.

Lemma split_runs_at_space (s1 s2 cur : list ascii) (c : ascii) :
  PyStr.isspace c = true ->
  PyStr.split_runs cur (s1 ++ c :: s2)
  = PyStr.split_runs cur s1 ++ PyStr.split_runs [] s2.
Proof.
  intros Hc. revert cur. induction s1 as [ | x s1 IH]; intros cur.
  - cbn [app PyStr.split_runs]. rewrite Hc. now destruct cur.
  - cbn [app PyStr.split_runs]. destruct (PyStr.isspace x).
    + destruct cur; [apply IH | ]. cbn [app]. f_equal. apply IH.
    + apply IH.
Qed.

Lemma split_space_app (a b : string) :
  PyStr.split (a ++ " " ++ b) = PyStr.split a ++ PyStr.split b.
Proof.
  unfold PyStr.split. rewrite !list_ascii_of_string_app. cbn [list_ascii_of_string app].
  rewrite (split_runs_at_space _ _ [] " "%char eq_refl), map_app. reflexivity.
Qed.

Lemma split_join (parts : list string) :
  PyStr.split (PyStr.join " " parts) = flat_map PyStr.split parts.
Proof.
  unfold PyStr.join.
  induction parts as [ | x parts IH]; [reflexivity | ].
  destruct parts as [ | y parts].
  - cbn [String.concat flat_map]. now rewrite app_nil_r.
  - change (String.concat " " (x :: y :: parts))
      with (x ++ " " ++ String.concat " " (y :: parts))%string.
    rewrite split_space_app, IH. reflexivity.
Qed.

Lemma map_flat_map {A B C : Type} (g : B -> C) (f : A -> list B) (l : list A) :
  map g (flat_map f l) = flat_map (fun x => map g (f x)) l.
Proof.
  induction l as [ | x l IH]; cbn [flat_map map]; [reflexivity | ].
  now rewrite map_app, IH.
Qed.

(** X16: joining with a space and tokenizing commute. The tokens of
    [" ".join(parts)] are the tokens of the parts, in order, so the text
    that [ingest_bundle] embeds for a slice has the tokens of the summary
    followed by those of each highlight, and a slice built by
    [from_texts], whose only highlight repeats its summary, has every
    token of its content twice. *)
Theorem tokenize_join (parts : list string) (a b : string) (modality : Modality)
    (item : Entry) :
  _tokenize (PyStr.join " " parts) = flat_map _tokenize parts
  /\ _tokenize (a ++ " " ++ b) = _tokenize a ++ _tokenize b
  /\ (let slice_ := slice_of_entry modality item in
      _tokenize (PyStr.join " " (slice_summary slice_ :: slice_highlights slice_))
      = if PyStr.truthy (entry_body item)
        then _tokenize (entry_body item) ++ _tokenize (entry_body item)
        else []).
Proof.
  assert (forall l, _tokenize (PyStr.join " " l) = flat_map _tokenize l) as Hjoin.
  { intros l. rewrite tokenize_unfiltered, split_join, map_flat_map.
    apply flat_map_ext. intros t. symmetry. apply tokenize_unfiltered. }
  split; [apply Hjoin | ]. split.
  - rewrite !tokenize_unfiltered, split_space_app, map_app. reflexivity.
  - cbv zeta. rewrite Hjoin.
    unfold slice_of_entry, new_slice, ensure_highlights.
    cbn [slice_summary slice_highlights filter].
    destruct (PyStr.truthy (entry_body item)) eqn:E; cbn [flat_map].
    + now rewrite app_nil_r.
    + destruct (entry_body item); [reflexivity | discriminate E].
Qed.

(** * The orchestration flow ([orchestration.py])

    [run_orchestration] is a caller of the engine: it ingests the bundle
    of a request into a fresh engine, queries it with the goal, folds the
    hits into one synthesis slice and scores how well they cover the
    goal. *)

From Stdlib Require Import DecimalString.

(** [needle in hay] for strings: [needle] occurs as a substring. *)
Fixpoint str_contains (needle hay : string) : bool :=
  prefix needle hay
  || match hay with
     | EmptyString => false
     | String _ hay' => str_contains needle hay'
     end.

(** [str(n)] for a length. *)
Definition str_of_len {A : Type} (l : list A) : string :=
  NilEmpty.string_of_uint (Nat.to_uint (List.length l)).

(** [sorted(s)] for a set of strings: ascending by code points. Its
    elements being distinct, the result does not depend on the order in
    which the set is iterated. *)
Fixpoint insert_str (x : string) (l : list string) : list string :=
  match l with
  | [] => [x]
  | y :: l' => if String.ltb x y then x :: l else y :: insert_str x l'
  end.

Definition sorted_str_set (l : list string) : list string :=
  fold_right insert_str [] (PySeq.dedup l).

Record OrchestrationRequest : Type := {
  goal : string;
  request_bundle : KnowledgeBundle;
  request_top_k : Z
}.

Record Evaluation (F : Type) : Type := {
  coverage : F;
  avg_relevance : F;
  passes : bool
}.
Arguments coverage {F}.
Arguments avg_relevance {F}.
Arguments passes {F}.

(** The [notes] of a step: one of the three dicts the flow builds. *)
Inductive StepNotes (F : Type) : Type :=
| NotesIds (ids : list string)
| NotesTags (tags : list string)
| NotesEvaluation (evaluation : Evaluation F).
Arguments NotesIds {F}.
Arguments NotesTags {F}.
Arguments NotesEvaluation {F}.

Record OrchestrationStep (F : Type) : Type := {
  step_name : string;
  step_summary : string;
  step_notes : StepNotes F
}.
Arguments step_name {F}.
Arguments step_summary {F}.
Arguments step_notes {F}.

Record OrchestrationReport (F : Type) : Type := {
  report_hits : list (RetrievalHit F);
  synthesis : KnowledgeBundle;
  evaluation : Evaluation F;
  steps : list (OrchestrationStep F)
}.
Arguments report_hits {F}.
Arguments synthesis {F}.
Arguments evaluation {F}.
Arguments steps {F}.

Section Orchestration.
Context {F : Type} `{PyFloat F}.

(** The set [terms] of [_coverage_score], as a list without repeats. *)
Definition coverage_terms (goal : string) : list string :=
  PySeq.dedup
    (map PyStr.lower
         (filter (fun t => (3 <? String.length t)%nat) (PyStr.split goal))).

(** [lower_text] for one hit. *)
Definition hit_lower_text (hit : RetrievalHit F) : string :=
  PyStr.lower (PyStr.join " " (hit_summary hit :: hit_tags hit)).

(** The set [found] after the loop: the terms that occur in the text of
    some hit. *)
Definition coverage_found (terms : list string) (hits : list (RetrievalHit F))
    : list string :=
  filter (fun t => existsb (fun hit => str_contains t (hit_lower_text hit)) hits) terms.

Definition _coverage_score (goal : string) (hits : list (RetrievalHit F)) : F :=
  let terms := coverage_terms goal in
  match terms with
  | [] => of_int 0
  | _ :: _ =>
      let found := coverage_found terms hits in
      pyround (fdiv (of_int (len found)) (of_int (len terms))) 4
  end.

(** [a >= b] on values that are not NaN (a rounded ratio of two lengths
    never is). *)
Definition fge (a b : F) : bool := negb (flt a b).

Definition run_orchestration (request : OrchestrationRequest) : OrchestrationReport F :=
  let retrieval := RetrievalEngine.init None (of_int 0) (of_int 0) in
  let retrieval := snd (RetrievalEngine.ingest_bundle retrieval (request_bundle request)) in
  let hits := hits (RetrievalEngine.query retrieval (goal request) (request_top_k request)) in
  let step1 :=
    {| step_name := "retrieval";
       step_summary := "Found " ++ str_of_len hits ++ " hits for goal '"
                       ++ goal request ++ "'";
       step_notes := NotesIds (map hit_id hits) |} in
  let highlight_texts := filter PyStr.truthy (map hit_summary hits) in
  let joined := PyStr.join " " highlight_texts in
  let merged_summary :=
    if PyStr.truthy joined then joined else "No supporting context found" in
  let synthesis_bundle :=
    {| slices :=
         [ new_slice "synthesis" merged_summary highlight_texts Mixed
                     (sorted_str_set (flat_map hit_tags hits))
                     (flat_map hit_sources hits) ] |} in
  let step2 :=
    {| step_name := "synthesis";
       step_summary :=
         "Consolidated retrieval hits into a single bundle for downstream agents.";
       step_notes := NotesTags (sorted_str_set (flat_map hit_tags hits)) |} in
  let coverage := _coverage_score (goal request) hits in
  let avg_relevance :=
    pyround (fdiv (fsum (map hit_score hits)) (of_int (Z.max (len hits) 1))) 4 in
  let evaluation :=
    {| coverage := coverage;
       avg_relevance := avg_relevance;
       passes := fge coverage (literal 5 10) |} in
  let step3 :=
    {| step_name := "evaluation";
       step_summary := "Measured how well retrieval results cover the goal keywords.";
       step_notes := NotesEvaluation evaluation |} in
  {| report_hits := hits;
     synthesis := synthesis_bundle;
     evaluation := evaluation;
     steps := [step1; step2; step3] |}.

End Orchestration.

(** ** Sets of strings and their sorted listing *)

Lemma mem_In (x : string) (l : list string) : PySeq.mem x l = true <-> In x l.
Proof.
  unfold PySeq.mem. rewrite existsb_exists. split.
  - intros [y [Hy E]]. apply String.eqb_eq in E. now subst.
  - intros Hx. exists x. split; [exact Hx | apply String.eqb_refl].
Qed.

Lemma dedup_In (x : string) (l : list string) : In x (PySeq.dedup l) <-> In x l.
Proof.
  induction l as [ | y l IH]; cbn [PySeq.dedup]; [tauto | ].
  destruct (PySeq.mem y l) eqn:E.
  - apply mem_In in E. rewrite IH. split; [now right | ].
    intros [-> | Hx]; assumption.
  - cbn [In]. now rewrite IH.
Qed.

Lemma dedup_NoDup (l : list string) : NoDup (PySeq.dedup l).
Proof.
  induction l as [ | y l IH]; cbn [PySeq.dedup]; [constructor | ].
  destruct (PySeq.mem y l) eqn:E; [exact IH | ].
  constructor; [ | exact IH].
  rewrite dedup_In. intros Hy. apply mem_In in Hy. congruence.
Qed.

(** Strict order of strings by code points, as [<] of Python has it. *)
Definition str_lt (a b : string) : Prop := String.ltb a b = true.

Lemma ltb_total (a b : string) :
  String.ltb a b = false -> a <> b -> String.ltb b a = true.
Proof.
  unfold String.ltb. intros Hab Hne.
  rewrite (String.compare_antisym b a).
  destruct (String.compare a b) eqn:E; cbn; try reflexivity; try discriminate.
  now apply String.compare_eq_iff in E.
Qed.

Lemma insert_str_perm (x : string) (l : list string) :
  Permutation (insert_str x l) (x :: l).
Proof.
  induction l as [ | y l IH]; cbn [insert_str]; [reflexivity | ].
  destruct (String.ltb x y); [reflexivity | ].
  rewrite IH. apply perm_swap.
Qed.

Lemma insert_str_sorted (x : string) (l : list string) :
  ~ In x l -> Sorted str_lt l -> Sorted str_lt (insert_str x l).
Proof.
  intros Hx Hs. induction Hs as [ | y l Hs IH Hhd]; cbn [insert_str].
  - repeat constructor.
  - destruct (String.ltb x y) eqn:E.
    + constructor; [now constructor | now constructor].
    + assert (str_lt y x) as Hyx.
      { apply ltb_total; [exact E | ]. intros ->. apply Hx. now left. }
      constructor.
      * apply IH. intros Hin. apply Hx. now right.
      * destruct Hhd as [ | z l Hyz]; cbn [insert_str].
        -- now constructor.
        -- destruct (String.ltb x z); now constructor.
Qed.

Lemma sorted_str_set_perm (l : list string) :
  Permutation (sorted_str_set l) (PySeq.dedup l).
Proof.
  unfold sorted_str_set.
  induction (PySeq.dedup l) as [ | x d IH]; cbn [fold_right]; [reflexivity | ].
  rewrite insert_str_perm. now constructor.
Qed.

Lemma sorted_str_set_sorted (l : list string) : Sorted str_lt (sorted_str_set l).
Proof.
  unfold sorted_str_set. pose proof (dedup_NoDup l) as Hnd.
  induction Hnd as [ | x d Hx Hnd IH]; cbn [fold_right]; [constructor | ].
  apply insert_str_sorted; [ | exact IH].
  intros Hin. apply Hx.
  assert (Permutation (fold_right insert_str [] d) d) as P.
  { clear. induction d as [ | y d IH]; cbn [fold_right]; [reflexivity | ].
    rewrite insert_str_perm. now constructor. }
  exact (Permutation_in _ P Hin).
Qed.

Lemma sorted_str_set_In (l : list string) (x : string) :
  In x (sorted_str_set l) <-> In x l.
Proof.
  rewrite <- (dedup_In x l). split; apply Permutation_in.
  - apply sorted_str_set_perm.
  - symmetry. apply sorted_str_set_perm.
Qed.

Lemma join_truthy (sep x : string) (l : list string) :
  PyStr.truthy x = true -> PyStr.truthy (PyStr.join sep (x :: l)) = true.
Proof.
  unfold PyStr.join. destruct x as [ | c x]; [discriminate | ]. intros _.
  destruct l; reflexivity.
Qed.

(** X17: whatever the request, the synthesis that [run_orchestration]
    returns is one slice with id [synthesis] and modality mixed. Its
    highlights are the non-empty summaries of the hits, in the order of
    the hits; its summary is never empty: the highlights joined by a
    space when there is one, the fixed sentence otherwise. Its tags are
    exactly the tags of the hits, each once, in strictly ascending order,
    and its source references are those of the hits, hit after hit. The
    report carries the hits of the query and its three steps are named
    retrieval, synthesis and evaluation, the first one listing the ids of
    the hits and the second one the tags of the slice. *)
Theorem synthesis_is_one_sorted_slice {F : Type} `{PyFloat F}
    (request : OrchestrationRequest) :
  let report := run_orchestration (F := F) request in
  let found := report_hits report in
  exists sl,
    slices (synthesis report) = [sl]
    /\ slice_id sl = "synthesis"
    /\ slice_modality sl = Mixed
    /\ slice_highlights sl = filter PyStr.truthy (map hit_summary found)
    /\ slice_summary sl <> ""
    /\ slice_summary sl
       = match slice_highlights sl with
         | [] => "No supporting context found"
         | _ :: _ => PyStr.join " " (slice_highlights sl)
         end
    /\ Sorted str_lt (slice_tags sl)
    /\ NoDup (slice_tags sl)
    /\ (forall tag, In tag (slice_tags sl)
                    <-> exists h, In h found /\ In tag (hit_tags h))
    /\ slice_source_refs sl = flat_map hit_sources found
    /\ map step_name (steps report) = ["retrieval"; "synthesis"; "evaluation"]
    /\ map step_notes (firstn 2 (steps report))
       = [NotesIds (map hit_id found); NotesTags (slice_tags sl)].
Proof.
  intros report found. unfold report in *. clear report.
  unfold run_orchestration in *. cbv zeta in *.
  cbn [report_hits synthesis steps slices] in *.
  set (hs := hits _) in *. subst found.
  eexists. split; [reflexivity | ].
  unfold new_slice.
  cbn [slice_id slice_modality slice_highlights slice_summary slice_tags
       slice_source_refs map step_name step_notes firstn].
  assert (ensure_highlights (filter PyStr.truthy (map hit_summary hs))
          = filter PyStr.truthy (map hit_summary hs)) as Eh.
  { unfold ensure_highlights. induction (map hit_summary hs) as [ | s l IH]; cbn [filter].
    - reflexivity.
    - destruct (PyStr.truthy s) eqn:E; cbn [filter]; [rewrite E | ]; now rewrite ?IH. }
  rewrite Eh.
  assert (Forall (fun s => PyStr.truthy s = true)
                 (filter PyStr.truthy (map hit_summary hs))) as Hne.
  { apply Forall_forall. intros s Hs. now apply filter_In in Hs. }
  repeat split.
  - destruct (PyStr.truthy (PyStr.join " " _)) eqn:E.
    + intros E'. rewrite E' in E. discriminate.
    + discriminate.
  - destruct (filter PyStr.truthy (map hit_summary hs)) as [ | s l].
    + reflexivity.
    + rewrite join_truthy; [reflexivity | ]. now inversion Hne.
  - apply sorted_str_set_sorted.
  - apply (Permutation_NoDup (l := PySeq.dedup (flat_map hit_tags hs))).
    + symmetry. apply sorted_str_set_perm.
    + apply dedup_NoDup.
  - intros Hin. apply sorted_str_set_In, in_flat_map in Hin. exact Hin.
  - intros Hex. apply sorted_str_set_In, in_flat_map. exact Hex.
Qed.

(** ** Coverage of the goal *)

Lemma filter_none {A : Type} (p : A -> bool) (l : list A) :
  Forall (fun x => p x = false) l -> filter p l = [].
Proof.
  induction 1 as [ | x l Hx _ IH]; cbn [filter]; [reflexivity | ].
  now rewrite Hx.
Qed.

Lemma filter_length_mono {A : Type} (p q : A -> bool) (l : list A) :
  (forall x, p x = true -> q x = true) ->
  (List.length (filter p l) <= List.length (filter q l))%nat.
Proof.
  intros Hpq. induction l as [ | x l IH]; cbn [filter]; [lia | ].
  destruct (p x) eqn:E.
  - rewrite (Hpq x E). cbn [List.length]. lia.
  - destruct (q x); cbn [List.length]; lia.
Qed.

Lemma short_words_no_terms (text : string) :
  Forall (fun t => (String.length t <= 3)%nat) (PyStr.split text) ->
  filter (fun t => (3 <? String.length t)%nat) (PyStr.split text) = [].
Proof.
  intros Hshort. apply filter_none.
  apply (Forall_impl _ (P := fun t => (String.length t <= 3)%nat)); [ | exact Hshort].
  intros t Ht. apply Nat.ltb_ge. exact Ht.
Qed.

Lemma coverage_terms_short_words (goal extra : string) :
  Forall (fun t => (String.length t <= 3)%nat) (PyStr.split extra) ->
  coverage_terms (goal ++ " " ++ extra) = coverage_terms goal.
Proof.
  intros Hshort. unfold coverage_terms.
  now rewrite split_space_app, filter_app, (short_words_no_terms extra Hshort), app_nil_r.
Qed.

(** X18: words of at most three characters play no part in the coverage
    score: appending to the goal, after a space, a text all of whose
    words have at most three characters leaves the score of every list
    of hits unchanged, and a goal made of such words only scores 0. *)
Theorem coverage_ignores_short_words {F : Type} `{PyFloat F}
    (goal extra : string) (found : list (RetrievalHit F)) :
  Forall (fun t => (String.length t <= 3)%nat) (PyStr.split extra) ->
  _coverage_score (goal ++ " " ++ extra) found = _coverage_score goal found
  /\ _coverage_score extra found = of_int 0.
Proof.
  intros Hshort. unfold _coverage_score. split.
  - now rewrite (coverage_terms_short_words goal extra Hshort).
  - unfold coverage_terms. now rewrite (short_words_no_terms extra Hshort).
Qed.

Lemma coverage_ignores_short_words_witness :
  Forall (fun t => (String.length t <= 3)%nat) (PyStr.split "for the map")
  /\ @_coverage_score float _ ("Attention Maps" ++ " " ++ "for the map") []
     = @_coverage_score float _ "Attention Maps" []
  /\ @_coverage_score float _ "for the map" [] = of_int 0.
Proof.
  assert (Forall (fun t => (String.length t <= 3)%nat) (PyStr.split "for the map")) as Hs.
  { vm_compute. repeat constructor. }
  split; [exact Hs | ].
  exact (coverage_ignores_short_words (F := float) "Attention Maps" "for the map" [] Hs).
Defined.

Section FloatCoverage.

Lemma coverage_float (goal : string) (found : list (RetrievalHit float)) :
  _coverage_score goal found
  = match coverage_terms goal with
    | [] => 0%float
    | _ :: _ =>
        ratio4 (len (coverage_found (coverage_terms goal) found))
               (len (coverage_terms goal))
    end.
Proof. unfold _coverage_score. destruct (coverage_terms goal); reflexivity. Qed.

Lemma coverage_found_le (terms : list string) (found : list (RetrievalHit float)) :
  0 <= len (coverage_found terms found) <= len terms.
Proof.
  unfold len, coverage_found. split; [lia | ].
  apply Nat2Z.inj_le, filter_length_le.
Qed.

Lemma coverage_found_mono (terms : list string) (hs hs' : list (RetrievalHit float)) :
  incl hs hs' ->
  len (coverage_found terms hs) <= len (coverage_found terms hs').
Proof.
  intros Hincl. unfold len, coverage_found.
  apply Nat2Z.inj_le, filter_length_mono.
  intros t Ht. apply existsb_exists in Ht. destruct Ht as [h [Hh Ht]].
  apply existsb_exists. exists h. split; [now apply Hincl | exact Ht].
Qed.

Lemma coverage_found_nil (terms : list string) :
  coverage_found terms (@nil (RetrievalHit float)) = [].
Proof.
  unfold coverage_found. cbn [existsb].
  apply filter_none, Forall_forall. reflexivity.
Qed.

Lemma len_cons_pos {A : Type} (x : A) (l : list A) : 1 <= len (x :: l).
Proof. unfold len. cbn [List.length]. lia. Qed.

(** Whether a goal passes, for at most [size_bound] terms: at least half
    of them are found. *)
Lemma passes_float (goal : string) (found : list (RetrievalHit float)) :
  len (coverage_terms goal) <= size_bound ->
  fge (_coverage_score goal found) (literal 5 10)
  = match coverage_terms goal with
    | [] => false
    | _ :: _ => len (coverage_terms goal)
                <=? 2 * len (coverage_found (coverage_terms goal) found)
    end.
Proof.
  intros Hb. rewrite coverage_float. unfold fge.
  change (@flt float PyFloat_float) with PrimFloat.ltb.
  destruct (coverage_terms goal) as [ | t terms] eqn:E; [reflexivity | ].
  rewrite <- E in *.
  assert (1 <= len (coverage_terms goal)) as H1 by (rewrite E; apply len_cons_pos).
  pose proof (coverage_found_le (coverage_terms goal) found) as Hf.
  assert (0 <= len (coverage_found (coverage_terms goal) found) <= size_bound) as Ha by lia.
  destruct (ratio4_facts _ _ Ha (conj H1 Hb)) as [_ [_ [_ Hhalf]]].
  rewrite Hhalf.
  destruct (2 * len (coverage_found (coverage_terms goal) found)
            <? len (coverage_terms goal)) eqn:E1;
    destruct (len (coverage_terms goal)
              <=? 2 * len (coverage_found (coverage_terms goal) found)) eqn:E2;
    try reflexivity.
  - apply Z.ltb_lt in E1. apply Z.leb_le in E2. lia.
  - apply Z.ltb_ge in E1. apply Z.leb_gt in E2. lia.
Qed.

Lemma coverage_no_hits (goal : string) :
  len (coverage_terms goal) <= size_bound ->
  _coverage_score goal (@nil (RetrievalHit float)) = 0%float.
Proof.
  intros Hb. rewrite coverage_float.
  destruct (coverage_terms goal) as [ | t terms] eqn:E; [reflexivity | ].
  rewrite <- E in *.
  assert (1 <= len (coverage_terms goal)) as H1 by (rewrite E; apply len_cons_pos).
  rewrite coverage_found_nil. change (len (@nil string)) with 0.
  assert (0 <= 0 <= size_bound) as Hz by (unfold size_bound; lia).
  destruct (ratio4_facts 0 _ Hz (conj H1 Hb)) as [_ [_ [Hzero _]]].
  now apply Hzero.
Qed.

End FloatCoverage.

(** X19: in binary64 the coverage score is never negative; for a goal of
    at most [size_bound] terms it lies in [0, 1], and it is 0.0 when
    there is no hit. *)
Theorem coverage_score_unit_interval (goal : string) (found : list (RetrievalHit float)) :
  PrimFloat.ltb (_coverage_score goal found) 0 = false
  /\ (len (coverage_terms goal) <= size_bound ->
      PrimFloat.leb 0 (_coverage_score goal found) = true
      /\ PrimFloat.leb (_coverage_score goal found) 1 = true
      /\ _coverage_score goal (@nil (RetrievalHit float)) = 0%float).
Proof.
  rewrite !coverage_float.
  destruct (coverage_terms goal) as [ | t terms] eqn:E.
  - split; [reflexivity | ]. intros _. repeat split; reflexivity.
  - rewrite <- E.
    assert (1 <= len (coverage_terms goal)) as H1 by (rewrite E; apply len_cons_pos).
    pose proof (coverage_found_le (coverage_terms goal) found) as Hf.
    split; [apply ratio4_not_negative; lia | ].
    intros Hb.
    assert (0 <= len (coverage_found (coverage_terms goal) found) <= size_bound) as Ha by lia.
    destruct (ratio4_facts _ _ Ha (conj H1 Hb)) as [H0 [Hle _]].
    split; [exact H0 | ]. split; [apply Hle; lia | ].
    pose proof (coverage_no_hits goal Hb) as Hzero.
    rewrite coverage_float, E in Hzero. rewrite <- E in Hzero. exact Hzero.
Qed.

Lemma coverage_score_unit_interval_witness :
  len (coverage_terms "attention maps") <= size_bound
  /\ PrimFloat.leb (@_coverage_score float _ "attention maps" []) 1 = true.
Proof.
  assert (len (coverage_terms "attention maps") <= size_bound) as Hb
    by (vm_compute; discriminate).
  split; [exact Hb | ].
  exact (proj1 (proj2 (proj2 (coverage_score_unit_interval "attention maps" []) Hb))).
Defined.

(** X20: in binary64, for a goal of at most [size_bound] terms, the
    coverage score never goes down when hits are added: if every hit of
    one list is in another, the score of the first is at most the score
    of the second. The order of the hits and their repetitions play no
    part. *)
Theorem coverage_score_monotone (goal : string) (hs hs' : list (RetrievalHit float)) :
  incl hs hs' -> len (coverage_terms goal) <= size_bound ->
  PrimFloat.leb (_coverage_score goal hs) (_coverage_score goal hs') = true.
Proof.
  intros Hincl Hb. rewrite !coverage_float.
  destruct (coverage_terms goal) as [ | t terms] eqn:E; [reflexivity | ].
  rewrite <- E in *.
  assert (1 <= len (coverage_terms goal)) as H1 by (rewrite E; apply len_cons_pos).
  pose proof (coverage_found_le (coverage_terms goal) hs) as Hf.
  pose proof (coverage_found_le (coverage_terms goal) hs') as Hf'.
  pose proof (coverage_found_mono (coverage_terms goal) hs hs' Hincl) as Hm.
  apply ratio4_mono; lia.
Qed.

Definition primer_hit : RetrievalHit float :=
  {| hit_id := "t1"; hit_score := 0%float; hit_summary := "Transformer attention primer";
     hit_tags := ["nlp"]; hit_modality := Text; hit_sources := ["paper"] |}.

Definition diagram_hit : RetrievalHit float :=
  {| hit_id := "i1"; hit_score := 0%float; hit_summary := "Visualization of attention map";
     hit_tags := ["visualization"]; hit_modality := Image; hit_sources := [] |}.

Lemma coverage_score_monotone_witness :
  incl [primer_hit] [primer_hit; diagram_hit]
  /\ len (coverage_terms "attention maps") <= size_bound
  /\ PrimFloat.leb (_coverage_score "attention maps" [primer_hit])
                   (_coverage_score "attention maps" [primer_hit; diagram_hit]) = true.
Proof.
  assert (incl [primer_hit] [primer_hit; diagram_hit]) as Hincl.
  { intros h [<- | []]. now left. }
  assert (len (coverage_terms "attention maps") <= size_bound) as Hb
    by (vm_compute; discriminate).
  split; [exact Hincl | split; [exact Hb | ]].
  exact (coverage_score_monotone "attention maps" _ _ Hincl Hb).
Defined.

(** A request over a bundle of one slice. *)
Definition primer_request : OrchestrationRequest :=
  {| goal := "attention primer";
     request_bundle :=
       {| slices := [new_slice "t1" "Transformer attention primer" ["attention weights"]
                               Text ["nlp"] ["paper"]] |};
     request_top_k := 3 |}.

(** X21: in binary64, a request whose goal has at most [size_bound]
    terms (the distinct lowered words of more than three characters)
    passes the evaluation exactly when it has a term and at least half
    of its terms occur in the text of some hit of the report. *)
Theorem half_coverage_passes (request : OrchestrationRequest) :
  let report := run_orchestration (F := float) request in
  let terms := coverage_terms (goal request) in
  len terms <= size_bound ->
  (passes (evaluation report) = true
   <-> terms <> []
       /\ len terms <= 2 * len (coverage_found terms (report_hits report))).
Proof.
  intros report terms Hb.
  change (passes (evaluation report))
    with (fge (_coverage_score (goal request) (report_hits report)) (literal 5 10)).
  rewrite (passes_float (goal request) (report_hits report) Hb). fold terms.
  destruct terms as [ | t ts] eqn:E.
  - split; [discriminate | intros [Hne _]; now contradiction Hne].
  - rewrite Z.leb_le. split; [intros Hle; split; [discriminate | exact Hle] | tauto].
Qed.

Lemma half_coverage_passes_witness :
  len (coverage_terms (goal primer_request)) <= size_bound
  /\ passes (evaluation (run_orchestration (F := float) primer_request)) = true.
Proof.
  assert (len (coverage_terms (goal primer_request)) <= size_bound) as Hb
    by (vm_compute; discriminate).
  split; [exact Hb | ].
  apply (proj2 (half_coverage_passes primer_request Hb)). split.
  - vm_compute. discriminate.
  - vm_compute. discriminate.
Defined.

(** X22: in binary64, a request whose goal has at most [size_bound]
    terms only passes the evaluation when some hit of the report covers
    a term: the goal has a word of more than three characters whose
    lowered form occurs in the lowered summary and tags of a hit. A
    report without hits, or a goal of short words only, never passes. *)
Theorem passing_needs_a_covered_term (request : OrchestrationRequest) :
  let report := run_orchestration (F := float) request in
  len (coverage_terms (goal request)) <= size_bound ->
  passes (evaluation report) = true ->
  exists word h,
    In word (PyStr.split (goal request))
    /\ (3 < String.length word)%nat
    /\ In h (report_hits report)
    /\ str_contains (PyStr.lower word) (hit_lower_text h) = true.
Proof.
  intros report Hb Hpass.
  change (passes (evaluation report))
    with (fge (_coverage_score (goal request) (report_hits report)) (literal 5 10))
    in Hpass.
  rewrite (passes_float (goal request) (report_hits report) Hb) in Hpass.
  destruct (coverage_terms (goal request)) as [ | t terms] eqn:E; [discriminate | ].
  rewrite <- E in Hpass. apply Z.leb_le in Hpass.
  assert (1 <= len (coverage_terms (goal request))) as H1 by (rewrite E; apply len_cons_pos).
  destruct (coverage_found (coverage_terms (goal request)) (report_hits report))
    as [ | w ws] eqn:Ef.
  { exfalso. change (len (@nil string)) with 0 in Hpass. lia. }
  assert (In w (coverage_found (coverage_terms (goal request)) (report_hits report)))
    as Hw by (rewrite Ef; now left).
  unfold coverage_found in Hw. apply filter_In in Hw. destruct Hw as [Hterm Hex].
  apply existsb_exists in Hex. destruct Hex as [h [Hh Hc]].
  unfold coverage_terms in Hterm. apply dedup_In, in_map_iff in Hterm.
  destruct Hterm as [word [<- Hword]]. apply filter_In in Hword.
  destruct Hword as [Hin Hlen]. apply Nat.ltb_lt in Hlen.
  exists word, h. repeat split; assumption.
Qed.

Lemma passing_needs_a_covered_term_witness :
  len (coverage_terms (goal primer_request)) <= size_bound
  /\ passes (evaluation (run_orchestration (F := float) primer_request)) = true
  /\ exists word h,
       In word (PyStr.split (goal primer_request))
       /\ (3 < String.length word)%nat
       /\ In h (report_hits (run_orchestration (F := float) primer_request))
       /\ str_contains (PyStr.lower word) (hit_lower_text h) = true.
Proof.
  assert (len (coverage_terms (goal primer_request)) <= size_bound) as Hb
    by (vm_compute; discriminate).
  assert (passes (evaluation (run_orchestration (F := float) primer_request)) = true) as Hp
    by (vm_compute; reflexivity).
  split; [exact Hb | split; [exact Hp | ]].
  exact (passing_needs_a_covered_term primer_request Hb Hp).
Defined.

(** The hits of the report are those of a fresh engine given the bundle. *)
Lemma report_hits_length {F : Type} `{PyFloat F} (request : OrchestrationRequest) :
  len (report_hits (run_orchestration (F := F) request))
  = let n := len (slices (request_bundle request)) in
    let k := request_top_k request in
    if k <? 0 then Z.max 0 (Z.max 0 (n + k) + k) else Z.min k n.
Proof.
  unfold run_orchestration. cbv zeta. cbn [report_hits].
  rewrite engine_query_length, index_query_length. cbv zeta.
  unfold RetrievalEngine.ingest_bundle. cbn [snd RetrievalEngine.with_index
    RetrievalEngine.index RetrievalEngine.init].
  rewrite ingest_fold_docs.
  change (InMemoryVectorIndex._docs InMemoryVectorIndex.init) with (@nil (IndexedDocument F)).
  cbn [app]. unfold len. rewrite length_map.
  destruct (request_top_k request <? 0); reflexivity.
Qed.

(** X23: a request that leaves retrieval without a hit (an empty bundle,
    [top_k = 0], or a negative [top_k] with at most [-2 * top_k] slices)
    and whose goal has at most [size_bound] terms is answered, in
    binary64, by one fixed report: no hits, the synthesis slice with the
    sentence [No supporting context found] as summary and no highlights,
    tags or source references, coverage and average relevance 0.0, and
    the evaluation not passed. No division by zero occurs: the average
    divides by [max(len(hits), 1)]. *)
Theorem no_hits_report (request : OrchestrationRequest) :
  slices (request_bundle request) = []
  \/ request_top_k request = 0
  \/ (request_top_k request < 0
      /\ len (slices (request_bundle request)) + 2 * request_top_k request <= 0) ->
  len (coverage_terms (goal request)) <= size_bound ->
  let verdict := {| coverage := 0%float; avg_relevance := 0%float; passes := false |} in
  run_orchestration (F := float) request
  = {| report_hits := [];
       synthesis :=
         {| slices :=
              [ {| slice_id := "synthesis";
                   slice_summary := "No supporting context found";
                   slice_highlights := [];
                   slice_modality := Mixed;
                   slice_source_refs := [];
                   slice_tags := [] |} ] |};
       evaluation := verdict;
       steps :=
         [ {| step_name := "retrieval";
              step_summary := "Found 0 hits for goal '" ++ goal request ++ "'";
              step_notes := NotesIds [] |};
           {| step_name := "synthesis";
              step_summary :=
                "Consolidated retrieval hits into a single bundle for downstream agents.";
              step_notes := NotesTags [] |};
           {| step_name := "evaluation";
              step_summary :=
                "Measured how well retrieval results cover the goal keywords.";
              step_notes := NotesEvaluation verdict |} ] |}.
Proof.
  intros Hcase Hb verdict.
  assert (report_hits (run_orchestration (F := float) request) = []) as Hnil.
  { pose proof (report_hits_length (F := float) request) as Hlen. cbv zeta in Hlen.
    assert (len (report_hits (run_orchestration (F := float) request)) = 0) as H0.
    { rewrite Hlen.
      assert (0 <= len (slices (request_bundle request))) as Hn by (unfold len; lia).
      destruct Hcase as [Hs | [Hk | [Hk Hs]]].
      - rewrite Hs. change (len (@nil KnowledgeSlice)) with 0.
        destruct (request_top_k request <? 0) eqn:E.
        + apply Z.ltb_lt in E. lia.
        + apply Z.ltb_ge in E. lia.
      - rewrite Hk. cbn. lia.
      - apply Z.ltb_lt in Hk. rewrite Hk. apply Z.ltb_lt in Hk. lia. }
    unfold len in H0. destruct (report_hits _); [reflexivity | cbn in H0; lia]. }
  unfold run_orchestration in *. cbv zeta in *. cbn [report_hits] in Hnil.
  rewrite !Hnil.
  assert (@_coverage_score float _ (goal request) [] = 0%float) as Hcov
    by (apply coverage_no_hits; exact Hb).
  rewrite Hcov. reflexivity.
Qed.

Definition empty_request : OrchestrationRequest :=
  {| goal := "attention primer"; request_bundle := {| slices := [] |};
     request_top_k := 3 |}.

Lemma no_hits_report_witness :
  slices (request_bundle empty_request) = []
  /\ len (coverage_terms (goal empty_request)) <= size_bound
  /\ report_hits (run_orchestration (F := float) empty_request) = []
  /\ passes (evaluation (run_orchestration (F := float) empty_request)) = false.
Proof.
  assert (slices (request_bundle empty_request) = []) as Hs by reflexivity.
  assert (len (coverage_terms (goal empty_request)) <= size_bound) as Hb
    by (vm_compute; discriminate).
  split; [exact Hs | split; [exact Hb | ]].
  rewrite (no_hits_report empty_request (or_introl Hs) Hb). split; reflexivity.
Defined.

(** Every hit of the report carries the fields of a slice of the bundle. *)
Lemma report_hit_from_slice {F : Type} `{PyFloat F} (request : OrchestrationRequest)
    (h : RetrievalHit F) :
  In h (report_hits (run_orchestration (F := F) request)) ->
  exists s, In s (slices (request_bundle request))
            /\ hit_id h = slice_id s
            /\ hit_summary h = slice_summary s
            /\ hit_tags h = slice_tags s
            /\ hit_modality h = slice_modality s
            /\ hit_sources h = slice_source_refs s.
Proof.
  unfold run_orchestration. cbv zeta. cbn [report_hits]. intros Hin.
  apply engine_query_from_index in Hin. destruct Hin as [r [Hr ->]].
  apply index_query_from_docs in Hr. destruct Hr as [d [Hd ->]].
  unfold RetrievalEngine.ingest_bundle in Hd.
  cbn [snd RetrievalEngine.with_index RetrievalEngine.index RetrievalEngine.init] in Hd.
  rewrite ingest_fold_docs in Hd.
  change (InMemoryVectorIndex._docs InMemoryVectorIndex.init)
    with (@nil (IndexedDocument F)) in Hd.
  cbn [app] in Hd. apply in_map_iff in Hd. destruct Hd as [s [<- Hs]].
  exists s. repeat split; [exact Hs].
Qed.

(** X24: the report of [run_orchestration] invents nothing. With [n]
    slices in the bundle it holds [min(top_k, n)] hits for [top_k >= 0]
    (and what two slices [[:top_k]] leave for a negative [top_k]); every
    hit has the id, summary, tags, modality and sources of a slice of the
    bundle; and so every highlight, tag and source reference of the
    synthesis slice is the summary, a tag or a source reference of a
    slice of the bundle. *)
Theorem report_draws_on_the_bundle {F : Type} `{PyFloat F}
    (request : OrchestrationRequest) :
  let report := run_orchestration (F := F) request in
  let given := slices (request_bundle request) in
  len (report_hits report)
  = (if request_top_k request <? 0
     then Z.max 0 (Z.max 0 (len given + request_top_k request) + request_top_k request)
     else Z.min (request_top_k request) (len given))
  /\ Forall (fun h => exists s, In s given
                                /\ hit_id h = slice_id s
                                /\ hit_summary h = slice_summary s
                                /\ hit_tags h = slice_tags s
                                /\ hit_modality h = slice_modality s
                                /\ hit_sources h = slice_source_refs s)
            (report_hits report)
  /\ Forall (fun sl =>
               incl (slice_highlights sl) (map slice_summary given)
               /\ incl (slice_tags sl) (flat_map slice_tags given)
               /\ incl (slice_source_refs sl) (flat_map slice_source_refs given))
            (slices (synthesis report)).
Proof.
  intros report given.
  assert (forall h, In h (report_hits report) ->
                    exists s, In s given
                              /\ hit_id h = slice_id s
                              /\ hit_summary h = slice_summary s
                              /\ hit_tags h = slice_tags s
                              /\ hit_modality h = slice_modality s
                              /\ hit_sources h = slice_source_refs s) as Hfrom
    by (intros h; apply report_hit_from_slice).
  split; [exact (report_hits_length request) | ].
  split; [now apply Forall_forall | ].
  change (slices (synthesis report))
    with [new_slice "synthesis"
            (let joined := PyStr.join " " (filter PyStr.truthy
                                             (map hit_summary (report_hits report))) in
             if PyStr.truthy joined then joined else "No supporting context found")
            (filter PyStr.truthy (map hit_summary (report_hits report)))
            Mixed
            (sorted_str_set (flat_map hit_tags (report_hits report)))
            (flat_map hit_sources (report_hits report))].
  constructor; [ | constructor].
  unfold new_slice. cbn [slice_highlights slice_tags slice_source_refs].
  split; [ | split].
  - intros s Hs. unfold ensure_highlights in Hs.
    apply filter_In, proj1, filter_In, proj1, in_map_iff in Hs.
    destruct Hs as [h [<- Hh]]. destruct (Hfrom h Hh) as [sl [Hsl [_ [E _]]]].
    rewrite E. now apply in_map.
  - intros tag Ht. apply sorted_str_set_In, in_flat_map in Ht.
    destruct Ht as [h [Hh Ht]]. destruct (Hfrom h Hh) as [sl [Hsl [_ [_ [E _]]]]].
    apply in_flat_map. exists sl. split; [exact Hsl | now rewrite <- E].
  - intros ref Hr. apply in_flat_map in Hr.
    destruct Hr as [h [Hh Hr]]. destruct (Hfrom h Hh) as [sl [Hsl [_ [_ [_ [_ E]]]]]].
    apply in_flat_map. exists sl. split; [exact Hsl | now rewrite <- E].
Qed.
